(** * interop/client: orchestration of the QUIC interop test cases

    A shallow embedding of [interop/client/main.go].  The client is driven by
    a test-case name and a list of URLs; it builds round trippers, downloads
    files through them and checks a few protocol-level expectations.

    Everything outside the file (net/http, the http09 and http3 round
    trippers, os, io, the goroutine scheduler) is an oracle of a [World]: a
    function of the history of the run so far.  The program itself is written
    in state-passing style over a [state] that carries that history as a
    trace of events. *)

From Stdlib Require Import List String Ascii ZArith Lia Bool Arith PeanoNat.
From Stdlib Require Import Permutation.
Import ListNotations.
Open Scope string_scope.

(** ** Errors *)

(** A Go [error] value.  [ErrPkg] is a package-level variable initialised once
    with [errors.New] (compared by identity in [main]); [ErrNew] is a value
    made inside a function by [errors.New] or [fmt.Errorf]; [ErrExt] is an
    error handed back by a callee outside this file. *)
Inductive error : Type :=
| ErrPkg (msg : string)
| ErrNew (msg : string)
| ErrExt (msg : string).

(** [err.Error()] *)
Definition Error (e : error) : string :=
  match e with
  | ErrPkg m | ErrNew m | ErrExt m => m
  end.

(** [var errUnsupported = errors.New("unsupported test case")] *)
Definition errUnsupported : error := ErrPkg "unsupported test case".

(** [strings.Contains(s, substr)]: [substr] occurs somewhere in [s]. *)
Fixpoint Contains (s substr : string) : bool :=
  if String.prefix substr s then true
  else match s with
       | EmptyString => false
       | String _ s' => Contains s' substr
       end.

(** ** Requests, round trippers and events *)

(** [http.MethodGet] and [http09.MethodGet0RTT]. *)
Inductive Method : Type := MethodGet | MethodGet0RTT.

Record Request : Type := mkRequest {
  req_method : Method;
  req_url : string;
  req_path : string            (* req.URL.Path *)
}.

(** The body of a response. *)
Definition Response : Type := string.

(** The two transports: [http3.RoundTripper] and [http09.RoundTripper]. *)
Inductive transport : Type := HTTP3 | HTTP09.

(** The one TLS configuration of the process: the global [tlsConf]. *)
Inductive TLSConfigRef : Type := tlsConf.

(** A round tripper object: [rt_id] is the identity of the allocation,
    [TLSClientConfig] the pointer it was built with ([None] for the literal
    [&http09.RoundTripper{}]). *)
Record RoundTripper : Type := mkRoundTripper {
  rt_id : nat;
  rt_kind : transport;
  TLSClientConfig : option TLSConfigRef
}.

Inductive event : Type :=
| EvOpen (r : RoundTripper)
| EvNewRequest (m : Method) (url : string) (res : option error)
| EvRoundTrip (r : RoundTripper) (req : Request) (res : option error)
| EvCreate (path : string) (res : option error)
| EvCopy (path : string) (res : option error)
| EvFileClose (path : string)
| EvBodyClose (req : Request)
| EvClose (r : RoundTripper) (res : option error)
| EvSetVersions (vs : list Z)
| EvSetSessionCache (capacity : nat)
| EvGoDone (i : nat) (res : option error).

(** ** The state of the process *)

Record state : Type := mkState {
  trace : list event;                    (* history, oldest first *)
  next_id : nat;                         (* round trippers allocated so far *)
  SupportedVersions : list Z;            (* protocol.SupportedVersions *)
  ClientSessionCache : option nat;       (* tlsConf.ClientSessionCache: capacity *)
  files : list string                    (* files created so far *)
}.

Definition emit (e : event) (s : state) : state :=
  mkState (trace s ++ [e]) (next_id s) (SupportedVersions s)
          (ClientSessionCache s) (files s).

(** ** The environment *)

Record World : Type := mkWorld {
  (* net/url: the path of a well-formed URL, or the parse error *)
  parse_url : string -> string + error;
  (* RoundTripper.RoundTrip *)
  round_trip : list event -> RoundTripper -> Request -> Response + error;
  (* RoundTripper.Close *)
  rt_close : list event -> RoundTripper -> option error;
  (* os.Create *)
  os_create : list event -> string -> option error;
  (* io.Copy into the file at a path *)
  io_copy : list event -> string -> Response -> option error;
  (* which of the runnable goroutines takes the next step *)
  sched : list event -> nat
}.

(** State-passing computations. *)
Definition M (A : Type) : Type := state -> A * state.

Section Client.

Variable w : World.

(** *** Primitives *)

(** [http.NewRequest(method, url, nil)] *)
Definition NewRequest (method : Method) (url : string) : M (Request + error) :=
  fun s =>
    match parse_url w url with
    | inl path =>
        (inl (mkRequest method url path), emit (EvNewRequest method url None) s)
    | inr err => (inr err, emit (EvNewRequest method url (Some err)) s)
    end.

(** [cl.RoundTrip(req)] *)
Definition RoundTrip (cl : RoundTripper) (req : Request) : M (Response + error) :=
  fun s =>
    match round_trip w (trace s) cl req with
    | inl rsp => (inl rsp, emit (EvRoundTrip cl req None) s)
    | inr err => (inr err, emit (EvRoundTrip cl req (Some err)) s)
    end.

(** [os.Create(path)]: on success the file exists afterwards. *)
Definition Create (path : string) : M (option error) :=
  fun s =>
    match os_create w (trace s) path with
    | None =>
        (None, mkState (trace s ++ [EvCreate path None]) (next_id s)
                       (SupportedVersions s) (ClientSessionCache s)
                       (path :: files s))
    | Some err => (Some err, emit (EvCreate path (Some err)) s)
    end.

(** [io.Copy(file, rsp.Body)] *)
Definition Copy (path : string) (rsp : Response) : M (option error) :=
  fun s =>
    let res := io_copy w (trace s) path rsp in
    (res, emit (EvCopy path res) s).

(** [file.Close()] and [rsp.Body.Close()], results unused. *)
Definition FileClose (path : string) : M unit :=
  fun s => (tt, emit (EvFileClose path) s).
Definition BodyClose (req : Request) : M unit :=
  fun s => (tt, emit (EvBodyClose req) s).

(** [&http3.RoundTripper{...}] / [&http09.RoundTripper{...}] *)
Definition newRoundTripper (k : transport) (tls : option TLSConfigRef)
  : M RoundTripper :=
  fun s =>
    let r := mkRoundTripper (next_id s) k tls in
    (r, mkState (trace s ++ [EvOpen r]) (S (next_id s)) (SupportedVersions s)
                (ClientSessionCache s) (files s)).

(** [r.Close()] *)
Definition Close (r : RoundTripper) : M (option error) :=
  fun s =>
    let res := rt_close w (trace s) r in
    (res, emit (EvClose r res) s).

(** [protocol.SupportedVersions = vs] *)
Definition setSupportedVersions (vs : list Z) : M unit :=
  fun s =>
    (tt, mkState (trace s ++ [EvSetVersions vs]) (next_id s) vs
                 (ClientSessionCache s) (files s)).

(** [tlsConf.ClientSessionCache = tls.NewLRUClientSessionCache(capacity)] *)
Definition setClientSessionCache (capacity : nat) : M unit :=
  fun s =>
    (tt, mkState (trace s ++ [EvSetSessionCache capacity]) (next_id s)
                 (SupportedVersions s) (Some capacity) (files s)).

(** *** downloadFile *)

Definition downloads : string := "/downloads".

Definition method_of (use0RTT : bool) : Method :=
  if use0RTT then MethodGet0RTT else MethodGet.

Definition downloadFile (cl : RoundTripper) (url : string) (use0RTT : bool)
  : M (option error) :=
  fun s =>
    let method := method_of use0RTT in
    match NewRequest method url s with
    | (inr err, s) => (Some err, s)
    | (inl req, s) =>
        match RoundTrip cl req s with
        | (inr err, s) => (Some err, s)
        | (inl rsp, s) =>
            (* defer rsp.Body.Close() *)
            let path := downloads ++ req_path req in
            match Create path s with
            | (Some err, s) =>
                let (_, s) := BodyClose req s in (Some err, s)
            | (None, s) =>
                (* defer file.Close() *)
                let (err, s) := Copy path rsp s in
                let (_, s) := FileClose path s in
                let (_, s) := BodyClose req s in
                (err, s)
            end
        end
    end.

(** *** downloadFiles: the errgroup *)

(** One goroutine started by [g.Go]: where it stands in [downloadFile], then
    [GRet] when the function has returned and the group has not yet been
    told, then [GDone]. *)
Inductive goroutine : Type :=
| GStart (url : string)
| GReq (req : Request)
| GRsp (req : Request) (rsp : Response)
| GFile (req : Request) (rsp : Response)
| GRet (err : option error)
| GDone (err : option error).

Definition is_done (g : goroutine) : bool :=
  match g with GDone _ => true | _ => false end.

(** Modelled from the spec: [errgroup.Group] (golang.org/x/sync/errgroup) is
    not under src/.  [Group.Go] runs the function in a goroutine of its own
    and keeps the first non-nil error any of them returns; [Group.Wait]
    blocks until all of them have returned and gives that error.  The
    definitions [record_err], [group_step] and [group_run] below are this
    model; the steps of a goroutine, [go_step], are those of [downloadFile]. *)
Record Group : Type := mkGroup {
  goroutines : list goroutine;
  g_err : option error
}.

(** Modelled from the spec: the group reports one of the failures, the
    first one observed (errOnce): a later error does not replace it. *)
Definition record_err (old new : option error) : option error :=
  match old with
  | Some _ => old
  | None => new
  end.

(** One step of the [i]-th goroutine.  The steps before [GRet] are those of
    [downloadFile], cut at its calls. *)
Definition go_step (cl : RoundTripper) (use0RTT : bool) (i : nat)
    (g : goroutine) (gerr : option error) : M (goroutine * option error) :=
  fun s =>
    match g with
    | GStart url =>
        match NewRequest (method_of use0RTT) url s with
        | (inr err, s) => (GRet (Some err), gerr, s)
        | (inl req, s) => (GReq req, gerr, s)
        end
    | GReq req =>
        match RoundTrip cl req s with
        | (inr err, s) => (GRet (Some err), gerr, s)
        | (inl rsp, s) => (GRsp req rsp, gerr, s)
        end
    | GRsp req rsp =>
        match Create (downloads ++ req_path req) s with
        | (Some err, s) => let (_, s) := BodyClose req s in (GRet (Some err), gerr, s)
        | (None, s) => (GFile req rsp, gerr, s)
        end
    | GFile req rsp =>
        let path := downloads ++ req_path req in
        let (err, s) := Copy path rsp s in
        let (_, s) := FileClose path s in
        let (_, s) := BodyClose req s in
        (GRet err, gerr, s)
    | GRet err => (GDone err, record_err gerr err, emit (EvGoDone i err) s)
    | GDone err => (GDone err, gerr, s)
    end.

(** The goroutines that have not finished. *)
Definition runnable (gs : list goroutine) : list nat :=
  filter (fun i => negb (is_done (nth i gs (GDone None)))) (seq 0 (List.length gs)).

Fixpoint set_nth {A : Type} (i : nat) (x : A) (l : list A) : list A :=
  match l, i with
  | [], _ => []
  | _ :: l', 0 => x :: l'
  | y :: l', S i' => y :: set_nth i' x l'
  end.

(** Modelled from the spec: the goroutines run concurrently with no order
    between them.  The scheduler picks one of the runnable goroutines and it
    takes a step. *)
Definition group_step (cl : RoundTripper) (use0RTT : bool) (g : Group)
  : M Group :=
  fun s =>
    match runnable (goroutines g) with
    | [] => (g, s)
    | i0 :: rest =>
        let i := nth (sched w (trace s) mod List.length (i0 :: rest)) (i0 :: rest) i0 in
        let '(gi, gerr, s) :=
          go_step cl use0RTT i (nth i (goroutines g) (GDone None)) (g_err g) s in
        (mkGroup (set_nth i gi (goroutines g)) gerr, s)
    end.

(** Modelled from the spec: the group runs until every goroutine has
    finished; [fuel] bounds the number of steps. *)
Fixpoint group_run (fuel : nat) (cl : RoundTripper) (use0RTT : bool)
    (g : Group) : M Group :=
  fun s =>
    match fuel with
    | 0 => (g, s)
    | S fuel' =>
        let (g', s') := group_step cl use0RTT g s in
        group_run fuel' cl use0RTT g' s'
    end.

(** Steps a goroutine still has to take. *)
Definition weight (g : goroutine) : nat :=
  match g with
  | GStart _ => 5
  | GReq _ => 4
  | GRsp _ _ => 3
  | GFile _ _ => 2
  | GRet _ => 1
  | GDone _ => 0
  end.

(** [g.Go] for every url, then the goroutines run until all have finished. *)
Definition downloadFiles_group (cl : RoundTripper) (urls : list string)
    (use0RTT : bool) : M Group :=
  group_run (5 * List.length urls) cl use0RTT (mkGroup (map GStart urls) None).

(** [return g.Wait()] *)
Definition downloadFiles (cl : RoundTripper) (urls : list string)
    (use0RTT : bool) : M (option error) :=
  fun s =>
    let (g, s) := downloadFiles_group cl urls use0RTT s in
    (g_err g, s).

(** *** The strategies *)

Definition reserved_version : Z := 0x1a2a3a4a.
Definition no_compatible : string := "No compatible QUIC version found".

Definition runVersionNegotiationTest (urls : list string) : M (option error) :=
  fun s =>
    if negb (List.length urls =? 1)%nat then
      (Some (ErrNew "expected at least 2 URLs"), s)
    else
      let (_, s) := setSupportedVersions [reserved_version] s in
      let (r, s) := newRoundTripper HTTP09 None s in
      let (err, s) := downloadFile r (nth 0 urls "") false s in
      match err with
      | None => (Some (ErrNew "expected version negotiation to fail"), s)
      | Some e =>
          if negb (Contains (Error e) no_compatible) then
            (Some (ErrNew ("expect version negotiation error, got: " ++ Error e)), s)
          else (None, s)
      end.

Fixpoint runMultiConnectTest (urls : list string) : M (option error) :=
  fun s =>
    match urls with
    | [] => (None, s)
    | url :: urls' =>
        let (r, s) := newRoundTripper HTTP09 (Some tlsConf) s in
        match downloadFile r url false s with
        | (Some err, s) => (Some err, s)
        | (None, s) =>
            match Close r s with
            | (Some err, s) => (Some err, s)
            | (None, s) => runMultiConnectTest urls' s
            end
        end
    end.

Definition runResumptionTest (urls : list string) (use0RTT : bool)
  : M (option error) :=
  fun s =>
    if (List.length urls <? 2)%nat then
      (Some (ErrNew "expected at least 2 URLs"), s)
    else
      let (_, s) := setClientSessionCache 1 s in
      (* do the first transfer *)
      let (r, s) := newRoundTripper HTTP09 (Some tlsConf) s in
      match downloadFiles r (firstn 1 urls) false s with
      | (Some err, s) => (Some err, s)
      | (None, s) =>
          let (_, s) := Close r s in
          (* reestablish the connection *)
          let (r, s) := newRoundTripper HTTP09 (Some tlsConf) s in
          (* defer r.Close() *)
          let (err, s) := downloadFiles r (skipn 1 urls) use0RTT s in
          let (_, s) := Close r s in
          (err, s)
      end.

(** [runTestcase]; [urls] is [flag.Args()].  A case of the switch that does
    not return ("handshake", "transfer", "retry") goes on to the code after
    the switch. *)
Definition runTestcase (testcase : string) (urls : list string)
  : M (option error) :=
  fun s =>
    if testcase =? "http3" then
      let (r, s) := newRoundTripper HTTP3 (Some tlsConf) s in
      (* defer r.Close() *)
      let (err, s) := downloadFiles r urls false s in
      let (_, s) := Close r s in
      (err, s)
    else if (testcase =? "handshake") || (testcase =? "transfer")
            || (testcase =? "retry") then
      let (r, s) := newRoundTripper HTTP09 (Some tlsConf) s in
      (* defer r.Close() *)
      let (err, s) := downloadFiles r urls false s in
      let (_, s) := Close r s in
      (err, s)
    else if testcase =? "multiconnect" then runMultiConnectTest urls s
    else if testcase =? "versionnegotiation" then runVersionNegotiationTest urls s
    else if testcase =? "resumption" then runResumptionTest urls false s
    else if testcase =? "zerortt" then runResumptionTest urls true s
    else (Some errUnsupported, s).

(** *** The plain transfer of the specification

    Opens exactly one handle on the transport [k], passes it with the full
    URL list to the concurrent fetch group, and closes the handle before it
    returns, on success and on failure. *)
Definition PlainTransfer_spec (k : transport) (urls : list string)
  : M (option error) :=
  fun s =>
    let (r, s) := newRoundTripper k (Some tlsConf) s in
    let (err, s) := downloadFiles r urls false s in
    let (_, s) := Close r s in
    (err, s).

End Client.

(** ** Views of a trace *)

(** What happened to the round trippers: allocation, exchange, close. *)
Inductive handle_event : Type :=
| Opened (id : nat)
| Fetched (id : nat) (url : string)
| Closed (id : nat).

Definition handle_view1 (e : event) : list handle_event :=
  match e with
  | EvOpen r => [Opened (rt_id r)]
  | EvRoundTrip r req _ => [Fetched (rt_id r) (req_url req)]
  | EvClose r _ => [Closed (rt_id r)]
  | _ => []
  end.

Definition handle_view (tr : list event) : list handle_event :=
  flat_map handle_view1 tr.

Definition handle_event_eqb (a b : handle_event) : bool :=
  match a, b with
  | Opened i, Opened j => (i =? j)%nat
  | Fetched i u, Fetched j v => (i =? j)%nat && (u =? v)
  | Closed i, Closed j => (i =? j)%nat
  | _, _ => false
  end.

Definition count (h : handle_event) (v : list handle_event) : nat :=
  List.length (filter (handle_event_eqb h) v).

(** How often the round tripper [id] was allocated, and closed. *)
Definition opens (id : nat) (tr : list event) : nat :=
  count (Opened id) (handle_view tr).
Definition closes (id : nat) (tr : list event) : nat :=
  count (Closed id) (handle_view tr).

(** One round tripper per url, one after the other: allocated, used for
    the one url, closed. *)
Definition one_by_one (first_id : nat) (urls : list string)
  : list handle_event :=
  flat_map (fun iu => [Opened (fst iu); Fetched (fst iu) (snd iu); Closed (fst iu)])
           (combine (seq first_id (List.length urls)) urls).

(** The events a call of [downloadFiles cl urls use0RTT] may add: requests
    for the given urls with the method chosen by [use0RTT], exchanges on
    [cl], file and body operations, and the goroutines' ends.  No round
    tripper is allocated or closed and no global is assigned. *)
Definition fetch_event (cl : RoundTripper) (urls : list string)
    (use0RTT : bool) (e : event) : Prop :=
  match e with
  | EvNewRequest m u _ => m = method_of use0RTT /\ In u urls
  | EvRoundTrip r req _ =>
      r = cl /\ req_method req = method_of use0RTT /\ In (req_url req) urls
  | EvCreate _ _ | EvCopy _ _ | EvFileClose _ | EvBodyClose _
  | EvGoDone _ _ => True
  | EvOpen _ | EvClose _ _ | EvSetVersions _ | EvSetSessionCache _ => False
  end.

(** ** Some environments *)

Definition init_state : state := mkState [] 0 [1%Z] None [].

(** The path of a URL: the part from the first '/' after "scheme://host". *)
Fixpoint from_slash (s : string) : string :=
  match s with
  | EmptyString => EmptyString
  | String c s' => if Ascii.eqb c "/"%char then s else from_slash s'
  end.

Definition url_path (u : string) : string + error :=
  match index 0 "://" u with
  | Some n => inl (from_slash (substring (n + 3) (String.length u) u))
  | None => inr (ErrExt "missing protocol scheme")
  end.

(** Every exchange succeeds; the first runnable goroutine always runs. *)
Definition world_ok : World :=
  mkWorld url_path
          (fun _ _ _ => inl "body")
          (fun _ _ => None)
          (fun _ _ => None)
          (fun _ _ _ => None)
          (fun _ => 0).

(** Every exchange fails with the given message. *)
Definition world_rt_fail (msg : string) : World :=
  mkWorld url_path
          (fun _ _ _ => inr (ErrExt msg))
          (fun _ _ => None)
          (fun _ _ => None)
          (fun _ _ _ => None)
          (fun _ => 0).

(** Exchanges succeed, closing a round tripper fails. *)
Definition world_close_fail : World :=
  mkWorld url_path
          (fun _ _ _ => inl "body")
          (fun _ _ => Some (ErrExt "close failed"))
          (fun _ _ => None)
          (fun _ _ _ => None)
          (fun _ => 0).

(** Exchanges succeed; closing fails for the round tripper 1 only. *)
Definition world_second_close_fails : World :=
  mkWorld url_path
          (fun _ _ _ => inl "body")
          (fun _ r => if (rt_id r =? 1)%nat then Some (ErrExt "close failed")
                      else None)
          (fun _ _ => None)
          (fun _ _ _ => None)
          (fun _ => 0).

(** The exchange for the url [bad] fails, the others succeed; the scheduler
    goes by the length of the history. *)
Definition world_one_bad (bad : string) : World :=
  mkWorld url_path
          (fun _ _ req => if req_url req =? bad then inr (ErrExt "connection refused")
                          else inl "body")
          (fun _ _ => None)
          (fun _ _ => None)
          (fun _ _ _ => None)
          (fun tr => List.length tr).

(** Total number of steps the goroutines of a group still have to take. *)
Definition total_weight (gs : list goroutine) : nat :=
  fold_right (fun g n => weight g + n) 0 gs.

(** A goroutine of [downloadFiles cl urls use0RTT] works on one of [urls]
    with the method chosen by [use0RTT]. *)
Definition goroutine_ok (urls : list string) (use0RTT : bool) (g : goroutine)
  : Prop :=
  match g with
  | GStart u => In u urls
  | GReq req | GRsp req _ | GFile req _ =>
      req_method req = method_of use0RTT /\ In (req_url req) urls
  | GRet _ | GDone _ => True
  end.

(** The error of the group is the error of a finished goroutine, and there
    is one as soon as a finished goroutine has an error. *)
Definition group_inv (g : Group) : Prop :=
  (g_err g = None -> forall e, In (GDone e) (goroutines g) -> e = None) /\
  (forall e, g_err g = Some e -> In (GDone (Some e)) (goroutines g)).

(** [s'] continues [s]: the history grows by events that satisfy [P], and
    nothing but the history and the files changes. *)
Definition extends (P : event -> Prop) (s s' : state) : Prop :=
  exists evs,
    trace s' = (trace s ++ evs)%list /\ Forall P evs /\
    next_id s' = next_id s /\
    SupportedVersions s' = SupportedVersions s /\
    ClientSessionCache s' = ClientSessionCache s.

(** ** The process: main *)

Definition nl : string := String (ascii_of_nat 10) EmptyString.

(** [err == errUnsupported]: identity with the package-level value.  A value
    made elsewhere is never identical to it, whatever its message. *)
Definition is_errUnsupported (e : error) : bool :=
  match e with
  | ErrPkg m => m =? "unsupported test case"
  | ErrNew _ | ErrExt _ => false
  end.

(** [tlsConf = &tls.Config{InsecureSkipVerify: true, KeyLogWriter: keyLog}]:
    a new configuration, whose session cache is nil. *)
Definition newTLSConfig : M unit :=
  fun s =>
    (tt, mkState (trace s) (next_id s) (SupportedVersions s) None (files s)).

Definition log_path : string := "/logs/log.txt".
Definition keylog_path : string := "/logs/keylogfile.txt".

(** What [flag.Parse()] makes of the command line.  The flag set is the
    default one, with [flag.ExitOnError]: when an argument asks for help the
    usage is written to standard error and the process ends with status 0,
    when a flag cannot be parsed the process ends with status 2; otherwise
    [flag.Args()] are the arguments that remain. *)
Inductive CommandLine : Type :=
| Parsed (args : list string)
| HelpRequested
| BadFlag.

(** [main]; [testcase] is [os.Getenv("TESTCASE")] and [cmdline] is what the
    [flag.Parse()] at the head of [runTestcase] makes of [os.Args].  The
    result is the exit status of the process and what it printed on standard
    output.  [os.Exit] ends the process at once, also from within
    [flag.Parse]: the deferred closes of the two log files run only when
    [main] returns. *)
Definition main (w : World) (testcase : string) (cmdline : CommandLine)
  : M (nat * string) :=
  fun s =>
    match Create w log_path s with
    | (Some err, s) =>
        ((1, "Could not create log file: " ++ Error err ++ nl), s)
    | (None, s) =>
        (* defer logFile.Close() *)
        match Create w keylog_path s with
        | (Some err, s) =>
            ((1, "Could not create key log file: " ++ Error err ++ nl), s)
        | (None, s) =>
            (* defer keyLog.Close() *)
            let (_, s) := newTLSConfig s in
            (* runTestcase(testcase): flag.Parse() *)
            match cmdline with
            | HelpRequested => ((0, ""), s)
            | BadFlag => ((2, ""), s)
            | Parsed args =>
                match runTestcase w testcase args s with
                | (Some err, s) =>
                    if is_errUnsupported err then
                      ((127, "unsupported test case: " ++ testcase ++ nl), s)
                    else
                      ((1, "Downloading files failed: " ++ Error err ++ nl), s)
                | (None, s) =>
                    let (_, s) := FileClose keylog_path s in
                    let (_, s) := FileClose log_path s in
                    ((0, ""), s)
                end
            end
        end
    end.

(** The names [runTestcase] knows. *)
Definition testcases : list string :=
  ["http3"; "handshake"; "transfer"; "retry"; "multiconnect";
   "versionnegotiation"; "resumption"; "zerortt"].

(** An error that is not a package-level value of this file. *)
Definition foreign (e : error) : Prop :=
  match e with
  | ErrPkg _ => False
  | ErrNew _ | ErrExt _ => True
  end.

(** The callees outside this file cannot hand back its unexported
    [errUnsupported]: their errors are their own. *)
Definition external_world (w : World) : Prop :=
  (forall u e, parse_url w u = inr e -> foreign e) /\
  (forall tr r req e, round_trip w tr r req = inr e -> foreign e) /\
  (forall tr r e, rt_close w tr r = Some e -> foreign e) /\
  (forall tr p e, os_create w tr p = Some e -> foreign e) /\
  (forall tr p rsp e, io_copy w tr p rsp = Some e -> foreign e).

(** ** Counting events *)

Definition cnt (p : event -> bool) (evs : list event) : nat :=
  List.length (filter p evs).

Definition is_exchange_ok (e : event) : bool :=
  match e with EvRoundTrip _ _ None => true | _ => false end.
Definition is_body_close (e : event) : bool :=
  match e with EvBodyClose _ => true | _ => false end.
Definition is_create_ok (e : event) : bool :=
  match e with EvCreate _ None => true | _ => false end.
Definition is_file_close (e : event) : bool :=
  match e with EvFileClose _ => true | _ => false end.
Definition is_go_done (e : event) : bool :=
  match e with EvGoDone _ _ => true | _ => false end.

(** The urls for which a request was built, in the order of the history. *)
Definition requested (evs : list event) : list string :=
  flat_map (fun e => match e with EvNewRequest _ u _ => [u] | _ => [] end) evs.

(** The urls of the goroutines that have not begun. *)
Definition pending1 (g : goroutine) : list string :=
  match g with GStart u => [u] | _ => [] end.
Definition pending (gs : list goroutine) : list string :=
  flat_map pending1 gs.

(** Response bodies and files a goroutine holds open. *)
Definition bodies_held (g : goroutine) : nat :=
  match g with GRsp _ _ | GFile _ _ => 1 | _ => 0 end.
Definition files_held (g : goroutine) : nat :=
  match g with GFile _ _ => 1 | _ => 0 end.
Definition finished (g : goroutine) : nat :=
  match g with GDone _ => 1 | _ => 0 end.

Definition total (f : goroutine -> nat) (gs : list goroutine) : nat :=
  fold_right (fun g n => f g + n) 0 gs.

(** An error a goroutine carries is foreign. *)
Definition goroutine_foreign (g : goroutine) : Prop :=
  match g with
  | GRet (Some e) | GDone (Some e) => foreign e
  | _ => True
  end.

(** What a step of a goroutine from [g] to [g'] with the new events [evs]
    may do: a request is built by a goroutine that had not begun, a body or
    a file closed was held, the end is reported once. *)
Definition tally (evs : list event) (g g' : goroutine) : Prop :=
  (requested evs ++ pending1 g')%list = pending1 g /\
  cnt is_exchange_ok evs + bodies_held g = cnt is_body_close evs + bodies_held g' /\
  cnt is_create_ok evs + files_held g = cnt is_file_close evs + files_held g' /\
  cnt is_go_done evs + finished g = finished g'.

(** The books of a group that was started on [urls] and has produced the
    events [evs] so far. *)
Definition group_tally (urls : list string) (gs : list goroutine)
    (evs : list event) : Prop :=
  Permutation (requested evs ++ pending gs) urls /\
  cnt is_exchange_ok evs = cnt is_body_close evs + total bodies_held gs /\
  cnt is_create_ok evs = cnt is_file_close evs + total files_held gs /\
  cnt is_go_done evs = total finished gs.

(** Exchanges succeed, the destination cannot be created. *)
Definition world_create_fail : World :=
  mkWorld url_path
          (fun _ _ _ => inl "body")
          (fun _ _ => None)
          (fun _ _ => Some (ErrExt "permission denied"))
          (fun _ _ _ => None)
          (fun _ => 0).

(** Exchanges succeed, the body breaks off while it is copied. *)
Definition world_copy_fail : World :=
  mkWorld url_path
          (fun _ _ _ => inl "body")
          (fun _ _ => None)
          (fun _ _ => None)
          (fun _ _ _ => Some (ErrExt "unexpected EOF"))
          (fun _ => 0).

(** An exchange on the round tripper [id] for one of [urls]. *)
Definition fetched_on (id : nat) (urls : list string) (h : handle_event)
  : Prop :=
  exists u, h = Fetched id u /\ In u urls.

(** How many exchanges the round tripper [id] made. *)
Definition exchanges_in (id : nat) (v : list handle_event) : nat :=
  List.length
    (filter (fun h => match h with
                      | Fetched j _ => (j =? id)%nat
                      | _ => false
                      end) v).
Definition exchanges (id : nat) (tr : list event) : nat :=
  exchanges_in id (handle_view tr).

(** The round tripper a handle event is about. *)
Definition handle_id (h : handle_event) : nat :=
  match h with Opened i | Fetched i _ | Closed i => i end.

(** Every file of [s'] was there in [s] or has the name the code gives the
    download of one of [urls]: "/downloads" followed by the path of the url
    as the parser returned it. *)
Definition stored_from (w : World) (urls : list string) (s s' : state) : Prop :=
  forall p, In p (files s') ->
            In p (files s) \/
            exists u path,
              In u urls /\ parse_url w u = inl path /\ p = "/downloads" ++ path.

(** The request a goroutine holds is the one [http.NewRequest] made of one
    of [urls]. *)
Definition goroutine_request (w : World) (urls : list string) (g : goroutine)
  : Prop :=
  match g with
  | GStart u => In u urls
  | GReq req | GRsp req _ | GFile req _ =>
      In (req_url req) urls /\ parse_url w (req_url req) = inl (req_path req)
  | GRet _ | GDone _ => True
  end.




(** The events of [s'] that came after [s]. *)
Definition new_events (s s' : state) : list event :=
  skipn (List.length (trace s)) (trace s').

(** From [s] to [s'] the history grew by events whose view is [v]. *)
Definition run_view (s s' : state) (v : list handle_event) : Prop :=
  exists evs, trace s' = (trace s ++ evs)%list /\ handle_view evs = v.

(** * Properties *)

(** ** Lists *)

Lemma set_nth_length {A : Type} (i : nat) (x : A) (l : list A) :
  List.length (set_nth i x l) = List.length l.
Proof.
  revert i; induction l as [|y l IH]; intros [|i]; simpl; auto.
Qed.

Lemma set_nth_In {A : Type} (i : nat) (x y : A) (l : list A) :
  In y (set_nth i x l) -> y = x \/ In y l.
Proof.
  revert i; induction l as [|z l IH]; intros [|i]; simpl; auto.
  - intros [H|H]; auto.
  - intros [H|H]; auto. destruct (IH _ H); auto.
Qed.

Lemma set_nth_In_new {A : Type} (i : nat) (x : A) (l : list A) :
  i < List.length l -> In x (set_nth i x l).
Proof.
  revert i; induction l as [|z l IH]; intros [|i]; simpl; try lia; auto.
  intros H. right. apply IH. lia.
Qed.

Lemma set_nth_In_old {A : Type} (i : nat) (x y d : A) (l : list A) :
  In y l -> y <> nth i l d -> In y (set_nth i x l).
Proof.
  revert i; induction l as [|z l IH]; intros [|i]; simpl; auto.
  - intros [H|H] Hne; auto. congruence.
  - intros [H|H] Hne; auto.
Qed.

Lemma set_nth_Forall {A : Type} (P : A -> Prop) (i : nat) (x : A) (l : list A) :
  P x -> Forall P l -> Forall P (set_nth i x l).
Proof.
  intros Hx; revert i; induction l as [|z l IH]; intros [|i] H; simpl; auto;
    inversion H; subst; constructor; auto.
Qed.

Lemma total_weight_set_nth (i : nat) (g : goroutine) (gs : list goroutine) :
  i < List.length gs ->
  total_weight (set_nth i g gs) + weight (nth i gs (GDone None))
  = total_weight gs + weight g.
Proof.
  revert i; induction gs as [|z gs IH]; intros [|i]; simpl; try lia.
  intros H. specialize (IH i ltac:(lia)). lia.
Qed.

Lemma total_weight_start (urls : list string) :
  total_weight (map GStart urls) = 5 * List.length urls.
Proof.
  induction urls as [|u urls IH]; simpl; auto. rewrite IH. lia.
Qed.

Lemma total_weight_0_done (gs : list goroutine) :
  total_weight gs = 0 -> Forall (fun g => exists e, g = GDone e) gs.
Proof.
  induction gs as [|g gs IH]; simpl; intros H; constructor.
  - destruct g; simpl in H; try lia. eauto.
  - apply IH. lia.
Qed.

Lemma done_total_weight_0 (gs : list goroutine) :
  Forall (fun g => is_done g = true) gs -> total_weight gs = 0.
Proof.
  induction 1 as [|g gs Hg _ IH]; simpl; auto.
  destruct g; simpl in *; try discriminate. assumption.
Qed.

Lemma runnable_spec (gs : list goroutine) (i : nat) :
  In i (runnable gs) <->
  i < List.length gs /\ is_done (nth i gs (GDone None)) = false.
Proof.
  unfold runnable. rewrite filter_In, in_seq, negb_true_iff. intuition lia.
Qed.

Lemma runnable_nil_done (gs : list goroutine) :
  runnable gs = [] -> Forall (fun g => is_done g = true) gs.
Proof.
  intros H. apply Forall_forall. intros g Hg.
  destruct (In_nth _ _ (GDone None) Hg) as (i & Hi & Hnth).
  destruct (is_done g) eqn:E; auto.
  assert (In i (runnable gs)) as Hin
    by (apply runnable_spec; rewrite Hnth; auto).
  rewrite H in Hin. destruct Hin.
Qed.

(** The goroutine the scheduler picks is one that has not finished. *)
Lemma pick_runnable (k i0 : nat) (rest : list nat) (gs : list goroutine) :
  runnable gs = i0 :: rest ->
  In (nth (k mod List.length (i0 :: rest)) (i0 :: rest) i0) (runnable gs).
Proof.
  intros H. rewrite H. apply nth_In. apply Nat.mod_upper_bound. simpl. lia.
Qed.

(** ** Continuations of a state *)

Lemma extends_refl (P : event -> Prop) (s : state) : extends P s s.
Proof.
  exists []. rewrite app_nil_r. auto.
Qed.

Lemma extends_trans (P : event -> Prop) (s1 s2 s3 : state) :
  extends P s1 s2 -> extends P s2 s3 -> extends P s1 s3.
Proof.
  intros (e1 & T1 & F1 & N1 & V1 & C1) (e2 & T2 & F2 & N2 & V2 & C2).
  exists (e1 ++ e2)%list. rewrite T2, T1, app_assoc.
  repeat split; try congruence. apply Forall_app; auto.
Qed.

Lemma extends_weaken (P Q : event -> Prop) (s s' : state) :
  (forall e, P e -> Q e) -> extends P s s' -> extends Q s s'.
Proof.
  intros H (evs & T & F & R). exists evs. repeat split; try tauto.
  eapply Forall_impl; eauto.
Qed.

Lemma extends_emit (P : event -> Prop) (e : event) (s : state) :
  P e -> extends P s (emit e s).
Proof.
  intros H. exists [e]. simpl. auto.
Qed.

Lemma extends_files (P : event -> Prop) (e : event) (s : state) (fs : list string) :
  P e ->
  extends P s (mkState (trace s ++ [e]) (next_id s) (SupportedVersions s)
                       (ClientSessionCache s) fs).
Proof.
  intros H. exists [e]. simpl. auto.
Qed.

(** Case analysis on what the environment answers. *)
Ltac ask_world :=
  match goal with
  | |- context [match ?x with inl _ => _ | inr _ => _ end] => destruct x eqn:?
  | |- context [match ?x with Some _ => _ | None => _ end] => destruct x eqn:?
  end.

(** The goal is [extends P s s'] with [s'] written out. *)
Ltac solve_extends :=
  unfold extends, emit; simpl; rewrite <- ?app_assoc; simpl;
  eexists; split; [reflexivity|];
  split; [repeat constructor; simpl; auto | auto].

Section Steps.

Variable w : World.
Variable cl : RoundTripper.
Variable urls : list string.
Variable use0RTT : bool.

Let ok := goroutine_ok urls use0RTT.
Let fev := fetch_event cl urls use0RTT.

(** A step of a goroutine adds only events of the download and leaves the
    goroutine at a point of the same download. *)
Lemma go_step_extends (i : nat) (g : goroutine) (gerr : option error) (s : state) :
  ok g ->
  extends fev s (snd (go_step w cl use0RTT i g gerr s)) /\
  ok (fst (fst (go_step w cl use0RTT i g gerr s))).
Proof.
  subst ok fev. intros Hok.
  destruct g as [u|req|req rsp|req rsp|e|e]; simpl in *.
  - unfold NewRequest. destruct (parse_url w u); simpl;
      (split; [apply extends_emit; simpl; auto | simpl; auto]).
  - unfold RoundTrip. destruct (round_trip w (trace s) cl req); simpl;
      (split; [apply extends_emit; simpl; tauto | simpl; auto]).
  - unfold Create. destruct (os_create w (trace s) _); simpl; split; auto.
    + eapply extends_trans; apply extends_emit; simpl; auto.
    + apply extends_files; simpl; auto.
  - split; auto.
    eapply extends_trans; [|apply extends_emit; simpl; auto].
    eapply extends_trans; apply extends_emit; simpl; auto.
  - split; auto. apply extends_emit; simpl; auto.
  - split; auto. apply extends_refl.
Qed.

(** A goroutine that has not finished gets closer to its end. *)
Lemma go_step_weight (i : nat) (g : goroutine) (gerr : option error) (s : state) :
  is_done g = false ->
  weight (fst (fst (go_step w cl use0RTT i g gerr s))) < weight g.
Proof.
  destruct g; simpl; try discriminate; intros _;
    unfold NewRequest, RoundTrip, Create, Copy, FileClose, BodyClose;
    repeat ask_world; simpl; lia.
Qed.

(** What a step does to the error of the group. *)
Lemma go_step_err (i : nat) (g : goroutine) (gerr : option error) (s : state) :
  match fst (fst (go_step w cl use0RTT i g gerr s)) with
  | GDone e =>
      (g = GRet e /\ snd (fst (go_step w cl use0RTT i g gerr s)) = record_err gerr e)
      \/ g = GDone e
  | _ => snd (fst (go_step w cl use0RTT i g gerr s)) = gerr
  end.
Proof.
  destruct g; simpl;
    unfold NewRequest, RoundTrip, Create, Copy, FileClose, BodyClose;
    repeat ask_world; simpl; auto.
Qed.

End Steps.

(** ** The errgroup *)

Section GroupRun.

Variable w : World.
Variable cl : RoundTripper.
Variable urls : list string.
Variable use0RTT : bool.

Let ok := goroutine_ok urls use0RTT.
Let fev := fetch_event cl urls use0RTT.

(** A step of the group: nothing is left to run, or one goroutine that has
    not finished takes its step. *)
Lemma group_step_cases (g : Group) (s : state) :
  (runnable (goroutines g) = [] /\ group_step w cl use0RTT g s = (g, s)) \/
  (exists i,
      i < List.length (goroutines g) /\
      is_done (nth i (goroutines g) (GDone None)) = false /\
      let r := go_step w cl use0RTT i (nth i (goroutines g) (GDone None))
                       (g_err g) s in
      group_step w cl use0RTT g s
      = (mkGroup (set_nth i (fst (fst r)) (goroutines g)) (snd (fst r)), snd r)).
Proof.
  unfold group_step. destruct (runnable (goroutines g)) as [|i0 rest] eqn:R.
  - left; auto.
  - right.
    pose proof (pick_runnable (sched w (trace s)) i0 rest (goroutines g) R) as Hin.
    apply runnable_spec in Hin. destruct Hin as [Hlt Hnd].
    eexists. split; [exact Hlt|]. split; [exact Hnd|]. simpl.
    destruct (go_step _ _ _ _ _ _ _) as [[gi ge] s']. reflexivity.
Qed.

Lemma group_step_length (g : Group) (s : state) :
  List.length (goroutines (fst (group_step w cl use0RTT g s)))
  = List.length (goroutines g).
Proof.
  destruct (group_step_cases g s) as [[_ E]|(i & _ & _ & E)];
    simpl in E; rewrite E; simpl; auto using set_nth_length.
Qed.

Lemma group_step_extends (g : Group) (s : state) :
  Forall ok (goroutines g) ->
  extends fev s (snd (group_step w cl use0RTT g s)) /\
  Forall ok (goroutines (fst (group_step w cl use0RTT g s))).
Proof.
  intros Hok.
  destruct (group_step_cases g s) as [[_ E]|(i & Hlt & _ & E)];
    simpl in E; rewrite E; simpl.
  - split; auto using extends_refl.
  - assert (ok (nth i (goroutines g) (GDone None))) as Hi.
    { eapply Forall_forall; [exact Hok|]. apply nth_In; auto. }
    destruct (go_step_extends w cl urls use0RTT i _ (g_err g) s Hi) as [He Hg].
    split; auto. apply set_nth_Forall; auto.
Qed.

Lemma group_step_weight (g : Group) (s : state) :
  total_weight (goroutines (fst (group_step w cl use0RTT g s)))
  < total_weight (goroutines g)
  \/ total_weight (goroutines (fst (group_step w cl use0RTT g s))) = 0.
Proof.
  destruct (group_step_cases g s) as [[R E]|(i & Hlt & Hnd & E)];
    simpl in E; rewrite E; simpl.
  - right. apply done_total_weight_0, runnable_nil_done, R.
  - left.
    pose proof (go_step_weight w cl use0RTT i _ (g_err g) s Hnd) as Hw.
    pose proof (total_weight_set_nth i
      (fst (fst (go_step w cl use0RTT i (nth i (goroutines g) (GDone None))
                         (g_err g) s))) (goroutines g) Hlt) as Ht.
    lia.
Qed.

(** The group keeps the first error: [group_inv] survives every step. *)
Lemma group_step_inv (g : Group) (s : state) :
  group_inv g -> group_inv (fst (group_step w cl use0RTT g s)).
Proof.
  intros [Hnone Hsome].
  destruct (group_step_cases g s) as [[_ E]|(i & Hlt & Hnd & E)];
    simpl in E; rewrite E; simpl; [split; auto|].
  pose proof (go_step_err w cl use0RTT i (nth i (goroutines g) (GDone None))
                          (g_err g) s) as Herr.
  set (r := go_step w cl use0RTT i (nth i (goroutines g) (GDone None))
                    (g_err g) s) in *.
  assert (forall e, In (GDone e) (goroutines g) ->
                    In (GDone e) (set_nth i (fst (fst r)) (goroutines g))) as Hold.
  { intros e He. eapply set_nth_In_old; eauto.
    intros Heq. rewrite <- Heq in Hnd. discriminate. }
  destruct (fst (fst r)) as [u|req|req rsp|req rsp|e|e] eqn:Hg;
    try (unfold group_inv; simpl; rewrite Herr; split;
         [ intros Hn e0 Hin; apply set_nth_In in Hin;
           destruct Hin as [Hin|Hin]; [discriminate | auto]
         | intros e0 He0; auto ]).
  destruct Herr as [[Hret Hrec]|Hdone]; [|rewrite Hdone in Hnd; discriminate].
  unfold group_inv; simpl. rewrite Hrec. unfold record_err.
  destruct (g_err g) as [e1|] eqn:Hge.
  - split; [discriminate|]. intros e0 He0. auto.
  - split.
    + intros He e0 Hin. apply set_nth_In in Hin. destruct Hin as [Hin|Hin].
      * congruence.
      * auto.
    + intros e0 He0. subst e. apply set_nth_In_new; auto.
Qed.

Lemma group_run_length (fuel : nat) (g : Group) (s : state) :
  List.length (goroutines (fst (group_run w fuel cl use0RTT g s)))
  = List.length (goroutines g).
Proof.
  revert g s; induction fuel as [|fuel IH]; intros g s; simpl; auto.
  destruct (group_step w cl use0RTT g s) as [g' s'] eqn:E.
  rewrite IH. change g' with (fst (g', s')). rewrite <- E.
  apply group_step_length.
Qed.

Lemma group_run_extends (fuel : nat) (g : Group) (s : state) :
  Forall ok (goroutines g) ->
  extends fev s (snd (group_run w fuel cl use0RTT g s)).
Proof.
  revert g s; induction fuel as [|fuel IH]; intros g s Hok; simpl.
  - apply extends_refl.
  - destruct (group_step_extends g s Hok) as [He Hg].
    destruct (group_step w cl use0RTT g s) as [g' s'].
    eapply extends_trans; [exact He|]. apply IH. exact Hg.
Qed.

Lemma group_run_inv (fuel : nat) (g : Group) (s : state) :
  group_inv g -> group_inv (fst (group_run w fuel cl use0RTT g s)).
Proof.
  revert g s; induction fuel as [|fuel IH]; intros g s Hinv; simpl; auto.
  pose proof (group_step_inv g s Hinv) as H.
  destruct (group_step w cl use0RTT g s) as [g' s']. apply IH. exact H.
Qed.

(** With fuel for every remaining step, all goroutines finish. *)
Lemma group_run_done (fuel : nat) (g : Group) (s : state) :
  total_weight (goroutines g) <= fuel ->
  Forall (fun x => exists e, x = GDone e)
         (goroutines (fst (group_run w fuel cl use0RTT g s))).
Proof.
  revert g s; induction fuel as [|fuel IH]; intros g s Hw; simpl.
  - apply total_weight_0_done. lia.
  - pose proof (group_step_weight g s) as H.
    destruct (group_step w cl use0RTT g s) as [g' s']. apply IH.
    simpl in H. lia.
Qed.

End GroupRun.

(** ** New events *)

Lemma skipn_length_app {A : Type} (l l' : list A) :
  skipn (List.length l) (l ++ l') = l'.
Proof.
  induction l; simpl; auto.
Qed.

Lemma extends_new_events (P : event -> Prop) (s s' : state) :
  extends P s s' ->
  trace s' = (trace s ++ new_events s s')%list /\ Forall P (new_events s s').
Proof.
  intros (evs & T & F & _). unfold new_events. rewrite T, skipn_length_app. auto.
Qed.

Lemma new_events_emit (e : event) (s : state) : new_events s (emit e s) = [e].
Proof.
  unfold new_events, emit. simpl. apply skipn_length_app.
Qed.

Lemma new_events_emit2 (e1 e2 : event) (s : state) :
  new_events s (emit e2 (emit e1 s)) = [e1; e2].
Proof.
  unfold new_events, emit. simpl. rewrite <- app_assoc. apply skipn_length_app.
Qed.

(** ** downloadFiles *)

Lemma start_ok (urls : list string) (use0RTT : bool) :
  Forall (goroutine_ok urls use0RTT) (map GStart urls).
Proof.
  apply Forall_forall. intros g Hg. apply in_map_iff in Hg.
  destruct Hg as (u & <- & Hu). exact Hu.
Qed.

Lemma start_inv (urls : list string) : group_inv (mkGroup (map GStart urls) None).
Proof.
  split; simpl; [|discriminate].
  intros _ e He. apply in_map_iff in He. destruct He as (u & Hu & _). discriminate.
Qed.

(** [downloadFiles] only adds events of its own download: requests for the
    given urls, exchanges on the given round tripper. *)
Lemma downloadFiles_extends (w : World) (cl : RoundTripper)
    (urls : list string) (use0RTT : bool) (s : state) :
  extends (fetch_event cl urls use0RTT) s
          (snd (downloadFiles w cl urls use0RTT s)).
Proof.
  unfold downloadFiles, downloadFiles_group.
  pose proof (group_run_extends w cl urls use0RTT (5 * List.length urls)
                (mkGroup (map GStart urls) None) s (start_ok urls use0RTT)) as H.
  destruct (group_run _ _ _ _ _ _) as [g s']. exact H.
Qed.

(** *** What the downloads did and what the group reports *)









(** ** downloadFile *)

Lemma downloadFile_extends (w : World) (cl : RoundTripper) (url : string)
    (use0RTT : bool) (s : state) :
  extends (fetch_event cl [url] use0RTT) s
          (snd (downloadFile w cl url use0RTT s)).
Proof.
  unfold downloadFile, NewRequest, RoundTrip, Create, Copy, FileClose, BodyClose.
  destruct (parse_url w url) as [path|e]; simpl; [|solve_extends].
  destruct (round_trip w _ cl _) as [rsp|e]; simpl; [|solve_extends].
  destruct (os_create w _ _) as [e|]; simpl; solve_extends.
Qed.

(** C10.  When the request cannot be built, or the exchange fails,
    [downloadFile] returns that error, the set of files is what it was, and
    no [os.Create] was attempted. *)
Theorem downloadFile_failure_creates_no_file (w : World) (cl : RoundTripper)
    (url : string) (use0RTT : bool) (s : state) (err : error) :
  parse_url w url = inr err \/
  (exists path,
      parse_url w url = inl path /\
      round_trip w (trace s ++ [EvNewRequest (method_of use0RTT) url None]) cl
                 (mkRequest (method_of use0RTT) url path) = inr err) ->
  let s' := snd (downloadFile w cl url use0RTT s) in
  fst (downloadFile w cl url use0RTT s) = Some err /\
  files s' = files s /\
  forall path res, ~ In (EvCreate path res) (new_events s s').
Proof.
  intros H. unfold downloadFile, NewRequest, RoundTrip.
  destruct H as [H|(path & H & Hrt)]; rewrite H; simpl.
  - rewrite new_events_emit. repeat split; auto.
    intros p r [Hin|[]]. discriminate.
  - rewrite Hrt. simpl. rewrite new_events_emit2. repeat split; auto.
    intros p r [Hin|[Hin|[]]]; discriminate.
Qed.

(** C10 at a transport that refuses the connection: the error comes back
    and there is no file. *)
Lemma downloadFile_failure_creates_no_file_witness :
  fst (downloadFile (world_rt_fail "connection refused")
                    (mkRoundTripper 0 HTTP09 None) "https://server/file" false
                    init_state)
  = Some (ErrExt "connection refused") /\
  files (snd (downloadFile (world_rt_fail "connection refused")
                           (mkRoundTripper 0 HTTP09 None) "https://server/file"
                           false init_state)) = [].
Proof.
  pose proof (downloadFile_failure_creates_no_file
                (world_rt_fail "connection refused")
                (mkRoundTripper 0 HTTP09 None) "https://server/file" false
                init_state (ErrExt "connection refused")) as H.
  destruct H as (H1 & H2 & _);
    [ right; exists "/file"; split; reflexivity | split; [exact H1 | exact H2] ].
Defined.

Lemma downloadFile_frame (w : World) (cl : RoundTripper) (url : string)
    (use0RTT : bool) (s : state) :
  next_id (snd (downloadFile w cl url use0RTT s)) = next_id s /\
  SupportedVersions (snd (downloadFile w cl url use0RTT s)) = SupportedVersions s /\
  ClientSessionCache (snd (downloadFile w cl url use0RTT s)) = ClientSessionCache s.
Proof.
  destruct (downloadFile_extends w cl url use0RTT s) as (_ & _ & _ & H). exact H.
Qed.

(** ** strings.Contains *)

Lemma prefix_app (p s : string) :
  String.prefix p s = true <-> exists b, s = p ++ b.
Proof.
  revert s; induction p as [|c p IH]; intros s; simpl.
  - destruct s; split; eauto.
  - destruct s as [|d s]; simpl.
    + split; [discriminate | intros [b H]; discriminate].
    + destruct (Ascii.ascii_dec c d) as [->|Hne].
      * rewrite IH. split; intros [b H]; exists b; congruence.
      * split; [discriminate | intros [b H]; congruence].
Qed.

Lemma Contains_unfold (s substr : string) :
  Contains s substr
  = if String.prefix substr s then true
    else match s with
         | EmptyString => false
         | String _ s' => Contains s' substr
         end.
Proof.
  destruct s; reflexivity.
Qed.

(** [Contains s substr] holds exactly when [s] is [a ++ substr ++ b]. *)
Lemma Contains_spec (s substr : string) :
  Contains s substr = true <-> exists a b, s = a ++ substr ++ b.
Proof.
  induction s as [|c s IH]; rewrite Contains_unfold;
    destruct (String.prefix substr _) eqn:E.
  - split; auto. intros _. apply prefix_app in E. destruct E as [b E].
    exists "", b. exact E.
  - split; [discriminate|]. intros (a & b & H).
    destruct a; [|discriminate]. simpl in H.
    assert (String.prefix substr "" = true) by (apply prefix_app; eauto).
    congruence.
  - split; auto. intros _. apply prefix_app in E. destruct E as [b E].
    exists "", b. exact E.
  - rewrite IH. split.
    + intros (a & b & H). exists (String c a), b. simpl. congruence.
    + intros (a & b & H). destruct a as [|d a].
      * simpl in H.
        assert (String.prefix substr (String c s) = true)
          by (apply prefix_app; eauto).
        congruence.
      * simpl in H. injection H as _ H. eauto.
Qed.

(** ** The version-negotiation probe *)

(** C2.  With one url the probe returns nil exactly when the download fails
    with a message that contains "No compatible QUIC version found"; when the
    download succeeds it returns "expected version negotiation to fail", and
    when it fails with another message it returns "expect version negotiation
    error, got: " followed by that message. *)
Theorem runVersionNegotiationTest_verdict (w : World) (url : string) (s : state) :
  let s0 := snd (setSupportedVersions [reserved_version] s) in
  let r := fst (newRoundTripper HTTP09 None s0) in
  let fetch := fst (downloadFile w r url false (snd (newRoundTripper HTTP09 None s0))) in
  let res := fst (runVersionNegotiationTest w [url] s) in
  (res = None <->
   exists e a b, fetch = Some e /\
                 Error e = a ++ "No compatible QUIC version found" ++ b) /\
  (fetch = None -> res = Some (ErrNew "expected version negotiation to fail")) /\
  (forall e, fetch = Some e ->
             Contains (Error e) "No compatible QUIC version found" = false ->
             res = Some (ErrNew ("expect version negotiation error, got: "
                                   ++ Error e))).
Proof.
  intros s0 r fetch res. subst res fetch r s0.
  unfold runVersionNegotiationTest, setSupportedVersions, newRoundTripper.
  cbn [List.length Nat.eqb negb nth fst snd].
  destruct (downloadFile w _ url false _) as [err s']. cbn [fst].
  unfold no_compatible.
  destruct err as [e|];
    [destruct (Contains (Error e) _) eqn:C; cbn [negb fst]|].
  - split; [split|split].
    + intros _. apply Contains_spec in C. destruct C as (a & b & C).
      exists e, a, b. auto.
    + reflexivity.
    + discriminate.
    + intros e0 [= <-] C'. congruence.
  - split; [split|split].
    + discriminate.
    + intros (e' & a & b & [= <-] & H).
      assert (Contains (Error e) "No compatible QUIC version found" = true)
        by (apply Contains_spec; eauto).
      congruence.
    + discriminate.
    + intros e' [= <-] _. reflexivity.
  - split; [split|split].
    + discriminate.
    + intros (e' & a & b & H & _). discriminate.
    + reflexivity.
    + discriminate.
Qed.

(** C9 (as the code has it).  Given exactly one url the probe leaves
    [protocol.SupportedVersions] set to the one reserved version; given any
    other number of urls it leaves it as it was. *)
Theorem runVersionNegotiationTest_versions (w : World) (urls : list string)
    (s : state) :
  SupportedVersions (snd (runVersionNegotiationTest w urls s))
  = if (List.length urls =? 1)%nat then [reserved_version]
    else SupportedVersions s.
Proof.
  unfold runVersionNegotiationTest.
  destruct (List.length urls =? 1)%nat; simpl; auto.
  match goal with |- context [downloadFile w ?r ?u false ?s1] =>
    pose proof (downloadFile_frame w r u false s1) as (_ & H & _);
    destruct (downloadFile w r u false s1) as [err s'] end.
  simpl in H. destruct err as [e|]; [destruct (negb _)|]; simpl; exact H.
Qed.

(** C9, counterexample: the versions were [1] before the probe and are the
    reserved one after it has returned. *)
Lemma versions_not_restored :
  SupportedVersions init_state = [1%Z] /\
  SupportedVersions
    (snd (runVersionNegotiationTest
            (world_rt_fail "No compatible QUIC version found")
            ["https://server/file"] init_state)) = [0x1a2a3a4a%Z] /\
  [0x1a2a3a4a%Z] <> [1%Z].
Proof.
  repeat split; try reflexivity. discriminate.
Qed.

(** ** The dispatcher *)

Lemma runTestcase_http3 (w : World) (urls : list string) :
  runTestcase w "http3" urls = PlainTransfer_spec w HTTP3 urls.
Proof. reflexivity. Qed.

Lemma runTestcase_baseline (w : World) (tc : string) (urls : list string) :
  In tc ["handshake"; "transfer"; "retry"] ->
  runTestcase w tc urls = PlainTransfer_spec w HTTP09 urls.
Proof.
  intros [<-|[<-|[<-|[]]]]; reflexivity.
Qed.

Lemma runTestcase_unknown (w : World) (tc : string) (urls : list string)
    (s : state) :
  ~ In tc ["http3"; "handshake"; "transfer"; "retry"; "multiconnect";
           "versionnegotiation"; "resumption"; "zerortt"] ->
  runTestcase w tc urls s = (Some errUnsupported, s).
Proof.
  intros H. unfold runTestcase.
  repeat match goal with
  | |- context [String.eqb tc ?name] =>
      let E := fresh "E" in
      assert (String.eqb tc name = false) as E
        by (apply String.eqb_neq; intros ->; apply H; simpl; tauto);
      rewrite E; clear E
  end.
  reflexivity.
Qed.

(** C3.  "http3" is the plain transfer over HTTP/3; "handshake", "transfer"
    and "retry" are one and the same plain transfer over HTTP/0.9;
    "multiconnect", "versionnegotiation", "resumption" (without 0-RTT) and
    "zerortt" (with 0-RTT) go to their strategies; any other name gives
    [errUnsupported] and leaves the state, history included, untouched. *)
Theorem runTestcase_dispatch (w : World) (urls : list string) :
  runTestcase w "http3" urls = PlainTransfer_spec w HTTP3 urls /\
  runTestcase w "handshake" urls = PlainTransfer_spec w HTTP09 urls /\
  runTestcase w "transfer" urls = PlainTransfer_spec w HTTP09 urls /\
  runTestcase w "retry" urls = PlainTransfer_spec w HTTP09 urls /\
  runTestcase w "multiconnect" urls = runMultiConnectTest w urls /\
  runTestcase w "versionnegotiation" urls = runVersionNegotiationTest w urls /\
  runTestcase w "resumption" urls = (fun s => runResumptionTest w urls false s) /\
  runTestcase w "zerortt" urls = (fun s => runResumptionTest w urls true s) /\
  forall tc s,
    ~ In tc ["http3"; "handshake"; "transfer"; "retry"; "multiconnect";
             "versionnegotiation"; "resumption"; "zerortt"] ->
    runTestcase w tc urls s = (Some errUnsupported, s).
Proof.
  repeat split; try reflexivity.
  intros tc s H. apply runTestcase_unknown, H.
Qed.

(** ** URL counts *)

(** C5 (as the code has it).  The resumption strategy given fewer than two
    urls, and the version-negotiation probe given any number of urls other
    than one, return the error "expected at least 2 URLs" and do nothing.
    The multi-connect strategy has no such check: given no url it returns
    nil and does nothing. *)
Theorem url_count_checks (w : World) (urls : list string) (use0RTT : bool)
    (s : state) :
  (List.length urls < 2 ->
   runResumptionTest w urls use0RTT s
   = (Some (ErrNew "expected at least 2 URLs"), s)) /\
  (List.length urls <> 1 ->
   runVersionNegotiationTest w urls s
   = (Some (ErrNew "expected at least 2 URLs"), s)) /\
  runMultiConnectTest w [] s = (None, s).
Proof.
  repeat split.
  - intros H. unfold runResumptionTest.
    apply Nat.ltb_lt in H. rewrite H. reflexivity.
  - intros H. unfold runVersionNegotiationTest.
    apply Nat.eqb_neq in H. rewrite H. reflexivity.
Qed.

(** C5, counterexample: the multi-connect strategy, given fewer urls than
    one, returns nil and not an error. *)
Lemma runMultiConnectTest_accepts_no_url :
  List.length (@nil string) < 1 /\
  runMultiConnectTest world_ok [] init_state = (None, init_state).
Proof.
  split; [simpl; lia | reflexivity].
Qed.

(** ** Round trippers left open *)

(** C1, evaluated where the code leaves a round tripper open: multi-connect
    whose download fails, resumption whose first download fails, and the
    version-negotiation probe (here on its success path).  In each run the
    round tripper 0 is allocated once and never closed. *)
Theorem round_trippers_left_open :
  let t1 := trace (snd (runMultiConnectTest (world_rt_fail "connection refused")
                          ["https://server/a"] init_state)) in
  let t2 := trace (snd (runResumptionTest (world_rt_fail "connection refused")
                          ["https://server/a"; "https://server/b"] false
                          init_state)) in
  let t3 := trace (snd (runVersionNegotiationTest
                          (world_rt_fail "No compatible QUIC version found")
                          ["https://server/a"] init_state)) in
  (opens 0 t1 = 1 /\ closes 0 t1 = 0) /\
  (opens 0 t2 = 1 /\ closes 0 t2 = 0) /\
  (opens 0 t3 = 1 /\ closes 0 t3 = 0).
Proof.
  vm_compute. repeat split.
Qed.

(** ** Views of a run *)

Lemma handle_view_app (t1 t2 : list event) :
  handle_view (t1 ++ t2) = (handle_view t1 ++ handle_view t2)%list.
Proof.
  unfold handle_view. apply flat_map_app.
Qed.

Lemma run_view_refl (s : state) : run_view s s [].
Proof.
  exists []. rewrite app_nil_r. auto.
Qed.

Lemma run_view_trans (s1 s2 s3 : state) (v1 v2 : list handle_event) :
  run_view s1 s2 v1 -> run_view s2 s3 v2 -> run_view s1 s3 (v1 ++ v2).
Proof.
  intros (e1 & T1 & V1) (e2 & T2 & V2). exists (e1 ++ e2)%list.
  rewrite T2, T1, app_assoc, handle_view_app, V1, V2. auto.
Qed.

Lemma run_view_new_events (s s' : state) (v : list handle_event) :
  run_view s s' v -> handle_view (new_events s s') = v.
Proof.
  intros (evs & T & V). unfold new_events. rewrite T, skipn_length_app. exact V.
Qed.

Lemma run_view_newRoundTripper (k : transport) (tls : option TLSConfigRef)
    (s : state) :
  run_view s (snd (newRoundTripper k tls s)) [Opened (next_id s)].
Proof.
  eexists. split; reflexivity.
Qed.

Lemma run_view_Close (w : World) (r : RoundTripper) (s : state) :
  run_view s (snd (Close w r s)) [Closed (rt_id r)].
Proof.
  eexists. split; reflexivity.
Qed.

(** A download that succeeds has made exactly one exchange. *)
Lemma run_view_downloadFile (w : World) (cl : RoundTripper) (url : string)
    (use0RTT : bool) (s : state) :
  fst (downloadFile w cl url use0RTT s) = None ->
  run_view s (snd (downloadFile w cl url use0RTT s)) [Fetched (rt_id cl) url].
Proof.
  unfold downloadFile, NewRequest, RoundTrip, Create, Copy, FileClose, BodyClose.
  destruct (parse_url w url) as [path|e]; simpl; [|discriminate].
  destruct (round_trip w _ cl _) as [rsp|e]; simpl; [|discriminate].
  destruct (os_create w _ _) as [e|]; simpl; [discriminate|].
  intros _. unfold run_view, emit; simpl. rewrite <- !app_assoc. simpl.
  eexists. split; reflexivity.
Qed.

(** ** Multi-connect *)

Lemma runMultiConnectTest_cons (w : World) (url : string) (urls : list string)
    (s : state) :
  runMultiConnectTest w (url :: urls) s =
  let r := fst (newRoundTripper HTTP09 (Some tlsConf) s) in
  let d := downloadFile w r url false
                        (snd (newRoundTripper HTTP09 (Some tlsConf) s)) in
  match fst d with
  | Some err => (Some err, snd d)
  | None =>
      match fst (Close w r (snd d)) with
      | Some err => (Some err, snd (Close w r (snd d)))
      | None => runMultiConnectTest w urls (snd (Close w r (snd d)))
      end
  end.
Proof.
  cbn [runMultiConnectTest newRoundTripper fst snd].
  destruct (downloadFile w _ url false _) as [[e|] s2]; cbn [fst snd];
    [reflexivity|].
  unfold Close. cbn [fst snd]. destruct (rt_close w (trace s2) _); reflexivity.
Qed.

(** Urls after a failure play no part. *)
Lemma runMultiConnectTest_app (w : World) (pre post : list string) (s : state) :
  runMultiConnectTest w (pre ++ post) s =
  match fst (runMultiConnectTest w pre s) with
  | Some _ => runMultiConnectTest w pre s
  | None => runMultiConnectTest w post (snd (runMultiConnectTest w pre s))
  end.
Proof.
  revert s; induction pre as [|u pre IH]; intros s.
  - reflexivity.
  - rewrite <- app_comm_cons, !runMultiConnectTest_cons. cbv zeta.
    destruct (fst (downloadFile w _ u false _)); [reflexivity|].
    destruct (fst (Close w _ _)); [reflexivity|]. apply IH.
Qed.

Lemma one_by_one_cons (first_id : nat) (u : string) (urls : list string) :
  one_by_one first_id (u :: urls)
  = ([Opened first_id; Fetched first_id u; Closed first_id]
       ++ one_by_one (S first_id) urls)%list.
Proof. reflexivity. Qed.

(** In [one_by_one] every round tripper of the range is allocated once and
    closed once, and no other is. *)
Lemma count_one_by_one (first_id : nat) (urls : list string) (i : nat) :
  let n := if (first_id <=? i)%nat && (i <? first_id + List.length urls)%nat
           then 1 else 0 in
  count (Opened i) (one_by_one first_id urls) = n /\
  count (Closed i) (one_by_one first_id urls) = n.
Proof.
  revert first_id; induction urls as [|u urls IH]; intros first_id; cbv zeta.
  - simpl. replace (first_id + 0) with first_id by lia.
    destruct (Nat.leb_spec first_id i), (Nat.ltb_spec i first_id);
      simpl; auto; lia.
  - rewrite one_by_one_cons. unfold count in *.
    rewrite !filter_app, !length_app.
    destruct (IH (S first_id)) as [IHo IHc]. rewrite IHo, IHc.
    cbn [filter handle_event_eqb List.length].
    destruct (Nat.eqb_spec i first_id), (Nat.leb_spec first_id i),
      (Nat.leb_spec (S first_id) i), (Nat.ltb_spec i (S first_id + List.length urls)),
      (Nat.ltb_spec i (first_id + S (List.length urls)));
      cbn [andb List.length]; try lia; auto.
Qed.

(** While all downloads and closes succeed, the round trippers come one by
    one, with fresh identities. *)
Lemma runMultiConnectTest_view (w : World) (urls : list string) (s : state) :
  fst (runMultiConnectTest w urls s) = None ->
  run_view s (snd (runMultiConnectTest w urls s)) (one_by_one (next_id s) urls) /\
  next_id (snd (runMultiConnectTest w urls s)) = next_id s + List.length urls.
Proof.
  revert s; induction urls as [|u urls IH]; intros s.
  - intros _. simpl. split; [apply run_view_refl | lia].
  - rewrite runMultiConnectTest_cons. cbv zeta.
    set (r := fst (newRoundTripper HTTP09 (Some tlsConf) s)).
    set (s1 := snd (newRoundTripper HTTP09 (Some tlsConf) s)).
    pose proof (run_view_downloadFile w r u false s1) as Hd.
    pose proof (downloadFile_frame w r u false s1) as (Hn & _).
    destruct (fst (downloadFile w r u false s1)); [discriminate|].
    pose proof (run_view_Close w r (snd (downloadFile w r u false s1))) as Hc.
    destruct (fst (Close w r _)); [discriminate|].
    intros H. destruct (IH _ H) as [Hv Hid].
    assert (next_id (snd (Close w r (snd (downloadFile w r u false s1))))
            = S (next_id s)) as Hnext by (simpl; rewrite Hn; reflexivity).
    rewrite Hnext in Hv, Hid. split; [|rewrite Hid; cbn [List.length]; lia].
    rewrite one_by_one_cons.
    change ([Opened (next_id s); Fetched (next_id s) u; Closed (next_id s)])
      with ([Opened (next_id s)] ++ [Fetched (rt_id r) u] ++ [Closed (rt_id r)])%list.
    rewrite <- !app_assoc.
    eapply run_view_trans; [apply run_view_newRoundTripper|].
    eapply run_view_trans; [apply Hd; reflexivity|].
    eapply run_view_trans; [apply Hc|]. exact Hv.
Qed.

(** C7.  Let all downloads and closes on the urls [pre] succeed.  Then the
    strategy has allocated one round tripper per url, each with a fresh
    identity, used it for the one exchange of its url and closed it before
    the next was allocated: every one of them is allocated once and closed
    once.  If the download of the next url fails, or the close after it,
    that error is the result and the run ends in the state of the failure:
    nothing is allocated or fetched for the urls [post] that follow. *)
Theorem runMultiConnectTest_sequential (w : World) (pre : list string)
    (s : state) :
  fst (runMultiConnectTest w pre s) = None ->
  let s1 := snd (runMultiConnectTest w pre s) in
  handle_view (new_events s s1) = one_by_one (next_id s) pre /\
  (forall i,
      let n := if (next_id s <=? i)%nat && (i <? next_id s + List.length pre)%nat
               then 1 else 0 in
      opens i (new_events s s1) = n /\ closes i (new_events s s1) = n) /\
  (forall url post,
      let r := fst (newRoundTripper HTTP09 (Some tlsConf) s1) in
      let d := downloadFile w r url false
                            (snd (newRoundTripper HTTP09 (Some tlsConf) s1)) in
      let c := Close w r (snd d) in
      runMultiConnectTest w (pre ++ url :: post) s =
      match fst d, fst c with
      | Some err, _ => (Some err, snd d)
      | None, Some err => (Some err, snd c)
      | None, None => runMultiConnectTest w post (snd c)
      end).
Proof.
  intros H s1.
  destruct (runMultiConnectTest_view w pre s H) as [Hv _].
  apply run_view_new_events in Hv. fold s1 in Hv.
  split; [exact Hv|]. split.
  - intros i. unfold opens, closes. rewrite Hv. apply count_one_by_one.
  - intros url post r d c.
    rewrite runMultiConnectTest_app, H. fold s1.
    rewrite runMultiConnectTest_cons. cbv zeta. fold r d c.
    destruct (fst d); [reflexivity|]. destruct (fst c); reflexivity.
Qed.

(** C7 at two urls that download and close without error. *)
Lemma runMultiConnectTest_sequential_witness :
  handle_view
    (new_events init_state
       (snd (runMultiConnectTest world_ok
               ["https://server/a"; "https://server/b"] init_state)))
  = [Opened 0; Fetched 0 "https://server/a"; Closed 0;
     Opened 1; Fetched 1 "https://server/b"; Closed 1].
Proof.
  exact (proj1 (runMultiConnectTest_sequential world_ok
                  ["https://server/a"; "https://server/b"] init_state eq_refl)).
Defined.

(** ** Resumption *)

Lemma runResumptionTest_eq (w : World) (u0 u1 : string) (rest : list string)
    (use0RTT : bool) (s : state) :
  runResumptionTest w (u0 :: u1 :: rest) use0RTT s =
  let s1 := snd (setClientSessionCache 1 s) in
  let r1 := fst (newRoundTripper HTTP09 (Some tlsConf) s1) in
  let p1 := downloadFiles w r1 [u0] false
                          (snd (newRoundTripper HTTP09 (Some tlsConf) s1)) in
  match fst p1 with
  | Some err => (Some err, snd p1)
  | None =>
      let s4 := snd (Close w r1 (snd p1)) in
      let r2 := fst (newRoundTripper HTTP09 (Some tlsConf) s4) in
      let p2 := downloadFiles w r2 (u1 :: rest) use0RTT
                              (snd (newRoundTripper HTTP09 (Some tlsConf) s4)) in
      (fst p2, snd (Close w r2 (snd p2)))
  end.
Proof.
  unfold runResumptionTest.
  cbn [List.length Nat.ltb Nat.leb firstn skipn setClientSessionCache
       newRoundTripper fst snd].
  destruct (downloadFiles w _ [u0] false _) as [[e|] s3]; cbn [fst snd];
    [reflexivity|].
  unfold Close at 1. cbn [fst snd].
  destruct (downloadFiles w _ (u1 :: rest) use0RTT _) as [e2 s6].
  reflexivity.
Qed.


(** ** Errors of Close *)

(** C8 (as the code has it).  Multi-connect returns the error of a failed
    close.  The deferred closes are cleanup, and what Close returns there is
    dropped: a plain transfer returns what its downloads returned, and so
    does the resumption strategy for its second round tripper, once phase 1
    and the close after it went through. *)
Theorem close_errors_reported_by_multiconnect_only (w : World) :
  (forall url urls s e,
      let r := fst (newRoundTripper HTTP09 (Some tlsConf) s) in
      let d := downloadFile w r url false
                            (snd (newRoundTripper HTTP09 (Some tlsConf) s)) in
      fst d = None ->
      fst (Close w r (snd d)) = Some e ->
      runMultiConnectTest w (url :: urls) s = (Some e, snd (Close w r (snd d)))) /\
  (forall u0 u1 rest use0RTT s,
      let s1 := snd (setClientSessionCache 1 s) in
      let r1 := fst (newRoundTripper HTTP09 (Some tlsConf) s1) in
      let p1 := downloadFiles w r1 [u0] false
                              (snd (newRoundTripper HTTP09 (Some tlsConf) s1)) in
      let s4 := snd (Close w r1 (snd p1)) in
      let r2 := fst (newRoundTripper HTTP09 (Some tlsConf) s4) in
      let p2 := downloadFiles w r2 (u1 :: rest) use0RTT
                              (snd (newRoundTripper HTTP09 (Some tlsConf) s4)) in
      fst p1 = None ->
      fst (Close w r1 (snd p1)) = None ->
      runResumptionTest w (u0 :: u1 :: rest) use0RTT s
      = (fst p2, snd (Close w r2 (snd p2)))) /\
  (forall tc urls s,
      In tc ["http3"; "handshake"; "transfer"; "retry"] ->
      let k := if tc =? "http3" then HTTP3 else HTTP09 in
      let r := fst (newRoundTripper k (Some tlsConf) s) in
      let p := downloadFiles w r urls false
                             (snd (newRoundTripper k (Some tlsConf) s)) in
      runTestcase w tc urls s = (fst p, snd (Close w r (snd p)))).
Proof.
  repeat split.
  - intros url urls s e r d Hd Hc.
    rewrite runMultiConnectTest_cons. cbv zeta. fold r d. rewrite Hd, Hc.
    reflexivity.
  - intros u0 u1 rest use0RTT s s1 r1 p1 s4 r2 p2 H1 _.
    rewrite runResumptionTest_eq. cbv zeta. fold s1 r1 p1. rewrite H1.
    reflexivity.
  - intros tc urls s Htc k r p.
    assert (runTestcase w tc urls = PlainTransfer_spec w k urls) as ->.
    { subst k. destruct Htc as [<-|Htc]; [apply runTestcase_http3|].
      rewrite (runTestcase_baseline w tc urls Htc).
      destruct Htc as [<-|[<-|[<-|[]]]]; reflexivity. }
    subst p r. unfold PlainTransfer_spec. cbn [newRoundTripper fst snd].
    destruct (downloadFiles w _ urls false _) as [err s']. reflexivity.
Qed.

(** C8, counterexample: the deferred close of a resumption run fails, and
    so does the deferred close of a plain transfer; both runs return nil. *)
Lemma deferred_close_errors_dropped :
  let run := runResumptionTest world_second_close_fails
               ["https://server/a"; "https://server/b"] false init_state in
  let plain := runTestcase world_close_fail "transfer" ["https://server/a"]
                 init_state in
  (fst run = None /\
   In (EvClose (mkRoundTripper 1 HTTP09 (Some tlsConf))
               (Some (ErrExt "close failed"))) (trace (snd run))) /\
  (fst plain = None /\
   In (EvClose (mkRoundTripper 0 HTTP09 (Some tlsConf))
               (Some (ErrExt "close failed"))) (trace (snd plain))).
Proof.
  vm_compute. repeat split; repeat (first [left; reflexivity | right]).
Qed.

(** ** Runs *)

Example downloadFiles_one_bad :
  downloadFiles_group (world_one_bad "https://server/b")
    (mkRoundTripper 0 HTTP09 (Some tlsConf))
    ["https://server/a"; "https://server/b"; "https://server/c"] false init_state
  = (mkGroup [GDone None; GDone (Some (ErrExt "connection refused")); GDone None]
             (Some (ErrExt "connection refused")),
     snd (downloadFiles (world_one_bad "https://server/b")
            (mkRoundTripper 0 HTTP09 (Some tlsConf))
            ["https://server/a"; "https://server/b"; "https://server/c"] false
            init_state)).
Proof. vm_compute. reflexivity. Qed.

Example probe_passes :
  fst (runTestcase (world_rt_fail "handshake failed: No compatible QUIC version found.")
                   "versionnegotiation" ["https://server/a"] init_state) = None.
Proof. reflexivity. Qed.

Example probe_wrong_reason :
  fst (runTestcase (world_rt_fail "timeout") "versionnegotiation"
                   ["https://server/a"] init_state)
  = Some (ErrNew "expect version negotiation error, got: timeout").
Proof. reflexivity. Qed.

Example unknown_testcase :
  runTestcase world_ok "goodput" ["https://server/a"] init_state
  = (Some errUnsupported, init_state).
Proof. reflexivity. Qed.

Example zerortt_methods :
  filter (fun e => match e with EvNewRequest _ _ _ => true | _ => false end)
         (trace (snd (runTestcase world_ok "zerortt"
                        ["https://server/a"; "https://server/b"] init_state)))
  = [EvNewRequest MethodGet "https://server/a" None;
     EvNewRequest MethodGet0RTT "https://server/b" None].
Proof. reflexivity. Qed.

(** * Further properties *)

(** ** downloadFile, path by path *)

Lemma new_events_explicit (s : state) (evs : list event) (n : nat)
    (vs : list Z) (c : option nat) (fs : list string) :
  new_events s (mkState (trace s ++ evs) n vs c fs) = evs.
Proof.
  unfold new_events. simpl. apply skipn_length_app.
Qed.

(** Puts the state a run of [downloadFile] ends in into the form
    [trace s ++ evs]. *)
Ltac flatten_trace :=
  unfold emit; cbn [trace next_id SupportedVersions ClientSessionCache files
                    fst snd];
  rewrite <- ?app_assoc; cbn [app];
  rewrite ?new_events_explicit.

(** When [downloadFile] returns nil, the request was built, the exchange
    gave a response, the file "/downloads" + path was created and is the one
    new file, the body was copied into it, and the file and the body were
    closed, in this order. *)
Theorem downloadFile_success (w : World) (cl : RoundTripper) (url : string)
    (use0RTT : bool) (s : state) :
  fst (downloadFile w cl url use0RTT s) = None ->
  exists path,
    parse_url w url = inl path /\
    let req := mkRequest (method_of use0RTT) url path in
    let s' := snd (downloadFile w cl url use0RTT s) in
    files s' = ("/downloads" ++ path) :: files s /\
    new_events s s'
    = [EvNewRequest (method_of use0RTT) url None;
       EvRoundTrip cl req None;
       EvCreate ("/downloads" ++ path) None;
       EvCopy ("/downloads" ++ path) None;
       EvFileClose ("/downloads" ++ path);
       EvBodyClose req].
Proof.
  unfold downloadFile, NewRequest, RoundTrip, Create, Copy, FileClose, BodyClose.
  destruct (parse_url w url) as [path|e]; cbn [fst snd]; [|discriminate].
  destruct (round_trip w _ cl _) as [rsp|e]; cbn [fst snd]; [|discriminate].
  destruct (os_create w _ _) as [e|]; cbn [fst snd]; [discriminate|].
  unfold downloads. cbv zeta. flatten_trace. cbn [req_path].
  intros H. exists path. split; [reflexivity|]. rewrite H.
  split; reflexivity.
Qed.

(** The success path at a world where everything succeeds. *)
Lemma downloadFile_success_witness :
  files (snd (downloadFile world_ok (mkRoundTripper 0 HTTP09 None)
                           "https://server/dir/file" true init_state))
  = ["/downloads/dir/file"].
Proof.
  destruct (downloadFile_success world_ok (mkRoundTripper 0 HTTP09 None)
              "https://server/dir/file" true init_state eq_refl)
    as (path & Hp & Hf & _).
  injection Hp as <-. exact Hf.
Defined.

(** On every path of [downloadFile] the response body is closed as often as
    an exchange gave a response, and the file as often as one was created:
    at most once each, and never when there was none. *)
Theorem downloadFile_releases (w : World) (cl : RoundTripper) (url : string)
    (use0RTT : bool) (s : state) :
  let evs := new_events s (snd (downloadFile w cl url use0RTT s)) in
  cnt is_body_close evs = cnt is_exchange_ok evs /\
  cnt is_file_close evs = cnt is_create_ok evs /\
  cnt is_exchange_ok evs <= 1 /\ cnt is_create_ok evs <= 1.
Proof.
  unfold downloadFile, NewRequest, RoundTrip, Create, Copy, FileClose, BodyClose.
  destruct (parse_url w url) as [path|e]; cbn [fst snd].
  2: { flatten_trace. cbv. auto. }
  destruct (round_trip w _ cl _) as [rsp|e]; cbn [fst snd].
  2: { flatten_trace. cbv. auto. }
  destruct (os_create w _ _) as [e|]; cbn [fst snd];
    flatten_trace; cbv; auto.
Qed.

(** If the destination cannot be created, [downloadFile] returns the error
    of [os.Create], the files are what they were, nothing is copied, and the
    response body is closed all the same. *)
Theorem downloadFile_create_failure (w : World) (cl : RoundTripper)
    (url path : string) (rsp : Response) (use0RTT : bool) (s : state)
    (err : error) :
  let req := mkRequest (method_of use0RTT) url path in
  let t1 := (trace s ++ [EvNewRequest (method_of use0RTT) url None])%list in
  let t2 := (t1 ++ [EvRoundTrip cl req None])%list in
  parse_url w url = inl path ->
  round_trip w t1 cl req = inl rsp ->
  os_create w t2 ("/downloads" ++ path) = Some err ->
  let s' := snd (downloadFile w cl url use0RTT s) in
  fst (downloadFile w cl url use0RTT s) = Some err /\
  files s' = files s /\
  new_events s s'
  = [EvNewRequest (method_of use0RTT) url None; EvRoundTrip cl req None;
     EvCreate ("/downloads" ++ path) (Some err); EvBodyClose req].
Proof.
  intros req t1 t2 Hp Hr Hc. subst req t1 t2.
  unfold downloadFile, NewRequest, RoundTrip, Create, Copy, FileClose, BodyClose.
  rewrite Hp. cbn [fst snd emit trace]. rewrite Hr. cbn [fst snd emit trace].
  unfold downloads. cbn [req_path]. rewrite Hc. cbn [fst snd].
  flatten_trace. repeat split.
Qed.

(** If copying the body fails, [downloadFile] returns the error of
    [io.Copy]; the file it created stays, and file and body are closed. *)
Theorem downloadFile_copy_failure (w : World) (cl : RoundTripper)
    (url path : string) (rsp : Response) (use0RTT : bool) (s : state)
    (err : error) :
  let req := mkRequest (method_of use0RTT) url path in
  let dst := "/downloads" ++ path in
  let t1 := (trace s ++ [EvNewRequest (method_of use0RTT) url None])%list in
  let t2 := (t1 ++ [EvRoundTrip cl req None])%list in
  let t3 := (t2 ++ [EvCreate dst None])%list in
  parse_url w url = inl path ->
  round_trip w t1 cl req = inl rsp ->
  os_create w t2 dst = None ->
  io_copy w t3 dst rsp = Some err ->
  let s' := snd (downloadFile w cl url use0RTT s) in
  fst (downloadFile w cl url use0RTT s) = Some err /\
  files s' = dst :: files s /\
  new_events s s'
  = [EvNewRequest (method_of use0RTT) url None; EvRoundTrip cl req None;
     EvCreate dst None; EvCopy dst (Some err); EvFileClose dst;
     EvBodyClose req].
Proof.
  intros req dst t1 t2 t3 Hp Hr Hc Hio. subst req dst t1 t2 t3.
  unfold downloadFile, NewRequest, RoundTrip, Create, Copy, FileClose, BodyClose.
  rewrite Hp. cbn [fst snd emit trace]. rewrite Hr. cbn [fst snd emit trace].
  unfold downloads. cbn [req_path]. rewrite Hc. cbn [fst snd emit trace].
  rewrite Hio. flatten_trace. repeat split.
Qed.

(** The storage failures at concrete worlds. *)
Lemma downloadFile_create_failure_witness :
  fst (downloadFile world_create_fail (mkRoundTripper 0 HTTP09 None)
                    "https://server/file" false init_state)
  = Some (ErrExt "permission denied") /\
  files (snd (downloadFile world_create_fail (mkRoundTripper 0 HTTP09 None)
                           "https://server/file" false init_state)) = [].
Proof.
  destruct (downloadFile_create_failure world_create_fail
              (mkRoundTripper 0 HTTP09 None) "https://server/file" "/file"
              "body" false init_state (ErrExt "permission denied")
              eq_refl eq_refl eq_refl) as (H1 & H2 & _).
  split; [exact H1 | exact H2].
Defined.

Lemma downloadFile_copy_failure_witness :
  fst (downloadFile world_copy_fail (mkRoundTripper 0 HTTP09 None)
                    "https://server/file" false init_state)
  = Some (ErrExt "unexpected EOF") /\
  files (snd (downloadFile world_copy_fail (mkRoundTripper 0 HTTP09 None)
                           "https://server/file" false init_state))
  = ["/downloads/file"].
Proof.
  destruct (downloadFile_copy_failure world_copy_fail
              (mkRoundTripper 0 HTTP09 None) "https://server/file" "/file"
              "body" false init_state (ErrExt "unexpected EOF")
              eq_refl eq_refl eq_refl eq_refl) as (H1 & H2 & _).
  split; [exact H1 | exact H2].
Defined.

(** ** The books of the errgroup *)

Lemma cnt_app (p : event -> bool) (a b : list event) :
  cnt p (a ++ b) = cnt p a + cnt p b.
Proof.
  unfold cnt. rewrite filter_app, length_app. reflexivity.
Qed.

Lemma requested_app (a b : list event) :
  requested (a ++ b) = (requested a ++ requested b)%list.
Proof.
  unfold requested. apply flat_map_app.
Qed.

Lemma total_set_nth (f : goroutine -> nat) (i : nat) (g : goroutine)
    (gs : list goroutine) :
  i < List.length gs ->
  total f (set_nth i g gs) + f (nth i gs (GDone None)) = total f gs + f g.
Proof.
  revert i; induction gs as [|z gs IH]; intros [|i]; simpl; try lia.
  intros H. specialize (IH i ltac:(lia)). lia.
Qed.

Lemma pending_set_nth (i : nat) (g : goroutine) (gs : list goroutine) :
  i < List.length gs ->
  Permutation (pending1 (nth i gs (GDone None)) ++ pending (set_nth i g gs))
              (pending1 g ++ pending gs).
Proof.
  revert i; induction gs as [|z gs IH]; intros [|i]; simpl; try lia; intros H.
  - apply Permutation_app_swap_app.
  - specialize (IH i ltac:(lia)). fold (pending (set_nth i g gs)).
    fold (pending gs).
    rewrite Permutation_app_swap_app.
    rewrite (Permutation_app_swap_app (pending1 g)).
    apply Permutation_app_head. exact IH.
Qed.

Lemma pending_start (urls : list string) : pending (map GStart urls) = urls.
Proof.
  induction urls as [|u urls IH]; simpl; congruence.
Qed.

Lemma total_start (f : goroutine -> nat) (urls : list string) :
  (forall u, f (GStart u) = 0) -> total f (map GStart urls) = 0.
Proof.
  intros H. induction urls as [|u urls IH]; simpl; auto. rewrite H, IH. auto.
Qed.

(** What the books say when every goroutine has finished. *)
Lemma all_done_books (gs : list goroutine) :
  Forall (fun x => exists e, x = GDone e) gs ->
  pending gs = [] /\ total bodies_held gs = 0 /\ total files_held gs = 0 /\
  total finished gs = List.length gs.
Proof.
  induction 1 as [|g gs [e ->] _ (IH1 & IH2 & IH3 & IH4)]; simpl; auto.
Qed.

Section Books.

Variable w : World.
Variable cl : RoundTripper.
Variable use0RTT : bool.

(** Every step of a goroutine keeps the books. *)
Lemma go_step_tally (i : nat) (g : goroutine) (gerr : option error) (s : state) :
  exists evs,
    trace (snd (go_step w cl use0RTT i g gerr s)) = (trace s ++ evs)%list /\
    tally evs g (fst (fst (go_step w cl use0RTT i g gerr s))).
Proof.
  destruct g as [u|req|req rsp|req rsp|e|e]; simpl.
  - unfold NewRequest. destruct (parse_url w u); simpl;
      eexists; (split; [reflexivity|]); cbv; auto.
  - unfold RoundTrip. destruct (round_trip w (trace s) cl req); simpl;
      eexists; (split; [reflexivity|]); cbv; auto.
  - unfold Create. destruct (os_create w (trace s) _); simpl.
    + rewrite <- app_assoc. eexists; (split; [reflexivity|]); cbv; auto.
    + eexists; (split; [reflexivity|]); cbv; auto.
  - rewrite <- !app_assoc. eexists; (split; [reflexivity|]); cbv; auto.
  - eexists; (split; [reflexivity|]); cbv; auto.
  - exists []. rewrite app_nil_r. cbv; auto.
Qed.

Variable urls : list string.

Lemma group_step_tally (g : Group) (s s0 : state) (evs : list event) :
  trace s = (trace s0 ++ evs)%list ->
  group_tally urls (goroutines g) evs ->
  exists evs',
    trace (snd (group_step w cl use0RTT g s)) = (trace s0 ++ evs')%list /\
    group_tally urls (goroutines (fst (group_step w cl use0RTT g s))) evs'.
Proof.
  intros T (Hp & Hb & Hf & Hd).
  destruct (group_step_cases w cl use0RTT g s) as [[_ E]|(i & Hlt & _ & E)];
    simpl in E; rewrite E; simpl.
  - exists evs. split; auto. repeat split; auto.
  - destruct (go_step_tally i (nth i (goroutines g) (GDone None)) (g_err g) s)
      as (e1 & T1 & (Tp & Tb & Tf & Td)).
    set (g' := fst (fst (go_step w cl use0RTT i
                                 (nth i (goroutines g) (GDone None)) (g_err g) s)))
      in *.
    exists (evs ++ e1)%list. split; [rewrite T1, T, app_assoc; reflexivity|].
    pose proof (total_set_nth bodies_held i g' (goroutines g) Hlt) as Sb.
    pose proof (total_set_nth files_held i g' (goroutines g) Hlt) as Sf.
    pose proof (total_set_nth finished i g' (goroutines g) Hlt) as Sd.
    pose proof (pending_set_nth i g' (goroutines g) Hlt) as Sp.
    unfold group_tally. rewrite !cnt_app, requested_app.
    repeat split; try lia.
    rewrite <- Tp in Sp. rewrite <- app_assoc in Sp.
    rewrite (Permutation_app_swap_app (requested e1)) in Sp.
    apply Permutation_app_inv_l in Sp.
    rewrite <- app_assoc, Sp. exact Hp.
Qed.

Lemma group_run_tally (fuel : nat) (g : Group) (s s0 : state)
    (evs : list event) :
  trace s = (trace s0 ++ evs)%list ->
  group_tally urls (goroutines g) evs ->
  exists evs',
    trace (snd (group_run w fuel cl use0RTT g s)) = (trace s0 ++ evs')%list /\
    group_tally urls (goroutines (fst (group_run w fuel cl use0RTT g s))) evs'.
Proof.
  revert g s evs; induction fuel as [|fuel IH]; intros g s evs T H; simpl.
  - exists evs. auto.
  - destruct (group_step_tally g s s0 evs T H) as (e1 & T1 & H1).
    destruct (group_step w cl use0RTT g s) as [g' s']. eapply IH; eauto.
Qed.

End Books.

Lemma downloadFiles_books (w : World) (cl : RoundTripper) (urls : list string)
    (use0RTT : bool) (s : state) :
  let evs := new_events s (snd (downloadFiles w cl urls use0RTT s)) in
  Permutation (requested evs) urls /\
  cnt is_exchange_ok evs = cnt is_body_close evs /\
  cnt is_create_ok evs = cnt is_file_close evs /\
  cnt is_go_done evs = List.length urls.
Proof.
  cbv zeta.
  unfold downloadFiles, downloadFiles_group.
  set (g0 := mkGroup (map GStart urls) None).
  pose proof (group_run_length w cl use0RTT (5 * List.length urls) g0 s) as Hlen.
  pose proof (group_run_done w cl use0RTT (5 * List.length urls) g0 s) as Hdone.
  destruct (group_run_tally w cl use0RTT urls (5 * List.length urls) g0 s s [])
    as (evs & T & (Hp & Hb & Hf & Hd)).
  { rewrite app_nil_r. reflexivity. }
  { subst g0. repeat split; cbn [goroutines requested flat_map app cnt filter
                                 List.length].
    - rewrite pending_start. apply Permutation_refl.
    - rewrite total_start; auto.
    - rewrite total_start; auto.
    - rewrite total_start; auto. }
  destruct (group_run w (5 * List.length urls) cl use0RTT g0 s) as [g s'].
  cbn [fst snd] in *.
  assert (total_weight (goroutines g0) <= 5 * List.length urls) as Hw.
  { subst g0. cbn [goroutines]. rewrite total_weight_start. lia. }
  destruct (all_done_books _ (Hdone Hw)) as (B1 & B2 & B3 & B4).
  unfold new_events. rewrite T, skipn_length_app.
  rewrite B1, app_nil_r in Hp. rewrite B2 in Hb. rewrite B3 in Hf.
  rewrite B4, Hlen in Hd. subst g0. cbn [goroutines] in Hd.
  rewrite length_map in Hd.
  repeat split; auto; lia.
Qed.

(** Whatever the scheduler does, [downloadFiles] builds a request for every
    url it was given, once per occurrence in the list and for no other url,
    and every goroutine reports its end once. *)
Theorem downloadFiles_requests_every_url (w : World) (cl : RoundTripper)
    (urls : list string) (use0RTT : bool) (s : state) :
  let evs := new_events s (snd (downloadFiles w cl urls use0RTT s)) in
  Permutation (requested evs) urls /\
  cnt is_go_done evs = List.length urls.
Proof.
  destruct (downloadFiles_books w cl urls use0RTT s) as (Hp & _ & _ & Hd).
  split; assumption.
Qed.

(** Whatever the scheduler does, when [downloadFiles] returns every response
    body an exchange gave has been closed, once, and every file created has
    been closed, once. *)
Theorem downloadFiles_releases (w : World) (cl : RoundTripper)
    (urls : list string) (use0RTT : bool) (s : state) :
  let evs := new_events s (snd (downloadFiles w cl urls use0RTT s)) in
  cnt is_body_close evs = cnt is_exchange_ok evs /\
  cnt is_file_close evs = cnt is_create_ok evs.
Proof.
  destruct (downloadFiles_books w cl urls use0RTT s) as (_ & Hb & Hf & _).
  cbv zeta. split; congruence.
Qed.

(** ** A group of one *)

Lemma group_step_single (w : World) (cl : RoundTripper) (use0RTT : bool)
    (g : goroutine) (ge : option error) (s : state) :
  is_done g = false ->
  group_step w cl use0RTT (mkGroup [g] ge) s
  = (mkGroup [fst (fst (go_step w cl use0RTT 0 g ge s))]
             (snd (fst (go_step w cl use0RTT 0 g ge s))),
     snd (go_step w cl use0RTT 0 g ge s)).
Proof.
  intros Hg.
  destruct (group_step_cases w cl use0RTT (mkGroup [g] ge) s)
    as [[R _]|(i & Hlt & _ & E)].
  - apply runnable_nil_done in R. inversion R; subst. congruence.
  - simpl in Hlt. assert (i = 0) as -> by lia. exact E.
Qed.

Lemma group_run_finished (w : World) (cl : RoundTripper) (use0RTT : bool)
    (fuel : nat) (e ge : option error) (s : state) :
  group_run w fuel cl use0RTT (mkGroup [GDone e] ge) s
  = (mkGroup [GDone e] ge, s).
Proof.
  induction fuel as [|fuel IH]; simpl; auto.
Qed.

Lemma group_run_S (w : World) (cl : RoundTripper) (use0RTT : bool)
    (fuel : nat) (g : Group) (s : state) :
  group_run w (S fuel) cl use0RTT g s
  = group_run w fuel cl use0RTT (fst (group_step w cl use0RTT g s))
              (snd (group_step w cl use0RTT g s)).
Proof.
  simpl. destruct (group_step w cl use0RTT g s); reflexivity.
Qed.

(** One step of a group of one goroutine that has not finished. *)
Ltac single_step :=
  rewrite group_run_S, group_step_single by reflexivity;
  cbn [go_step fst snd].

Lemma downloadFiles_one (w : World) (cl : RoundTripper) (url : string)
    (use0RTT : bool) (s : state) :
  downloadFiles w cl [url] use0RTT s
  = (fst (downloadFile w cl url use0RTT s),
     emit (EvGoDone 0 (fst (downloadFile w cl url use0RTT s)))
          (snd (downloadFile w cl url use0RTT s))).
Proof.
  unfold downloadFiles, downloadFiles_group, downloadFile.
  cbn [List.length Nat.mul Nat.add map].
  single_step.
  destruct (NewRequest w (method_of use0RTT) url s) as [[req|e] s1];
    cbn [fst snd].
  2: { single_step. rewrite group_run_finished. reflexivity. }
  single_step.
  destruct (RoundTrip w cl req s1) as [[rsp|e] s2]; cbn [fst snd].
  2: { single_step. rewrite group_run_finished. reflexivity. }
  single_step.
  destruct (Create w (downloads ++ req_path req) s2) as [[e|] s3];
    cbn [fst snd BodyClose].
  { single_step. rewrite group_run_finished. reflexivity. }
  single_step. cbn [Copy FileClose BodyClose fst snd].
  single_step. reflexivity.
Qed.

(** With a single url the group does what [downloadFile] does, and then
    reports the end of its one goroutine, whatever the scheduler answers:
    the steps of a goroutine are the steps of [downloadFile]. *)
Theorem downloadFiles_single (w : World) (cl : RoundTripper) (url : string)
    (use0RTT : bool) (s : state) :
  downloadFiles w cl [url] use0RTT s
  = (fst (downloadFile w cl url use0RTT s),
     emit (EvGoDone 0 (fst (downloadFile w cl url use0RTT s)))
          (snd (downloadFile w cl url use0RTT s))).
Proof.
  apply downloadFiles_one.
Qed.

(** ** What a download leaves alone *)

Lemma fetch_event_view (cl : RoundTripper) (urls : list string)
    (use0RTT : bool) (evs : list event) :
  Forall (fetch_event cl urls use0RTT) evs ->
  Forall (fetched_on (rt_id cl) urls) (handle_view evs).
Proof.
  induction 1 as [|e evs He _ IH]; simpl; [constructor|].
  destruct e; simpl in *; try exact IH; try contradiction.
  destruct He as (-> & _ & Hin). constructor; [|exact IH].
  eexists; eauto.
Qed.

Lemma fetched_on_count (id : nat) (urls : list string)
    (v : list handle_event) (i : nat) :
  Forall (fetched_on id urls) v ->
  count (Opened i) v = 0 /\ count (Closed i) v = 0.
Proof.
  induction 1 as [|h v (u & -> & _) _ IH]; simpl; auto.
Qed.

(** The view of a call of [downloadFiles]: exchanges on its round tripper. *)
Lemma run_view_downloadFiles (w : World) (cl : RoundTripper)
    (urls : list string) (use0RTT : bool) (s : state) :
  exists v,
    run_view s (snd (downloadFiles w cl urls use0RTT s)) v /\
    Forall (fetched_on (rt_id cl) urls) v.
Proof.
  destruct (downloadFiles_extends w cl urls use0RTT s) as (evs & T & F & _).
  exists (handle_view evs). split; [exists evs; auto|].
  eapply fetch_event_view; eauto.
Qed.

(** [downloadFiles] allocates no round tripper and closes none, assigns
    neither [protocol.SupportedVersions] nor the session cache, builds
    requests only for the urls it was given and with the method its
    [use0RTT] selects, and makes exchanges only on the round tripper it was
    given, whatever the scheduler and the environment do. *)
Theorem downloadFiles_footprint (w : World) (cl : RoundTripper)
    (urls : list string) (use0RTT : bool) (s : state) :
  let s' := snd (downloadFiles w cl urls use0RTT s) in
  Forall (fetch_event cl urls use0RTT) (new_events s s') /\
  (forall i, opens i (new_events s s') = 0 /\ closes i (new_events s s') = 0) /\
  next_id s' = next_id s /\
  SupportedVersions s' = SupportedVersions s /\
  ClientSessionCache s' = ClientSessionCache s.
Proof.
  intros s'. pose proof (downloadFiles_extends w cl urls use0RTT s) as E.
  fold s' in E. destruct (extends_new_events _ _ _ E) as [_ F].
  destruct E as (_ & _ & _ & N & V & C).
  repeat split; auto;
    apply (fetched_on_count (rt_id cl) urls), (fetch_event_view _ _ _ _ F).
Qed.

(** ** Plain transfers *)

Lemma count_app (h : handle_event) (a b : list handle_event) :
  count h (a ++ b) = count h a + count h b.
Proof.
  unfold count. rewrite filter_app, length_app. reflexivity.
Qed.

Lemma count_self (h : handle_event) : count h [h] = 1.
Proof.
  destruct h; unfold count; cbn [filter handle_event_eqb];
    rewrite ?Nat.eqb_refl, ?String.eqb_refl; reflexivity.
Qed.

Lemma run_view_plain (w : World) (k : transport) (urls : list string)
    (s : state) :
  exists v,
    run_view s (snd (PlainTransfer_spec w k urls s))
             ([Opened (next_id s)] ++ v ++ [Closed (next_id s)]) /\
    Forall (fetched_on (next_id s) urls) v.
Proof.
  unfold PlainTransfer_spec.
  set (r := fst (newRoundTripper k (Some tlsConf) s)).
  set (s1 := snd (newRoundTripper k (Some tlsConf) s)).
  change (newRoundTripper k (Some tlsConf) s) with (r, s1).
  destruct (run_view_downloadFiles w r urls false s1) as (v & Hv & Hf).
  pose proof (run_view_Close w r (snd (downloadFiles w r urls false s1))) as Hc.
  destruct (downloadFiles w r urls false s1) as [err s2]. cbn [fst snd] in *.
  exists v. split; [|exact Hf].
  eapply run_view_trans; [apply run_view_newRoundTripper|].
  eapply run_view_trans; [exact Hv | exact Hc].
Qed.

(** The test cases "http3", "handshake", "transfer" and "retry" allocate
    one round tripper, make all their exchanges on it, and close it exactly
    once as the last thing they do, whether the downloads succeed or fail. *)
Theorem plain_transfer_closes_once (w : World) (tc : string)
    (urls : list string) (s : state) :
  In tc ["http3"; "handshake"; "transfer"; "retry"] ->
  let evs := new_events s (snd (runTestcase w tc urls s)) in
  (exists v,
      handle_view evs = ([Opened (next_id s)] ++ v ++ [Closed (next_id s)])%list /\
      Forall (fetched_on (next_id s) urls) v) /\
  opens (next_id s) evs = 1 /\ closes (next_id s) evs = 1.
Proof.
  intros Htc evs.
  assert (exists k, runTestcase w tc urls = PlainTransfer_spec w k urls)
    as [k Hk].
  { destruct Htc as [<-|Htc]; [exists HTTP3; apply runTestcase_http3|].
    exists HTTP09. apply runTestcase_baseline, Htc. }
  subst evs. rewrite Hk.
  destruct (run_view_plain w k urls s) as (v & Hv & Hf).
  apply run_view_new_events in Hv.
  split; [exists v; auto|].
  unfold opens, closes. rewrite Hv, !count_app.
  destruct (fetched_on_count _ _ _ (next_id s) Hf) as [-> ->].
  rewrite !count_self. split; reflexivity.
Qed.

(** A plain transfer whose one download is refused still closes. *)
Lemma plain_transfer_closes_once_witness :
  closes 0 (new_events init_state
              (snd (runTestcase (world_rt_fail "connection refused") "retry"
                                ["https://server/a"] init_state))) = 1.
Proof.
  exact (proj2 (proj2 (plain_transfer_closes_once
                         (world_rt_fail "connection refused") "retry"
                         ["https://server/a"] init_state
                         (or_intror (or_intror (or_intror (or_introl eq_refl))))))).
Defined.

(** ** The life of a round tripper in the resumption strategy *)

Lemma run_view_silent (e : event) (s : state) :
  handle_view1 e = [] -> run_view s (emit e s) [].
Proof.
  intros H. exists [e]. split; [reflexivity|]. simpl. rewrite H. reflexivity.
Qed.

Lemma run_view_setClientSessionCache (n : nat) (s : state) :
  run_view s (snd (setClientSessionCache n s)) [].
Proof.
  eexists. split; reflexivity.
Qed.

(** When phase 1 succeeds, the resumption strategy allocates its first round
    tripper, makes the one exchange for the first url on it and closes it,
    and only then allocates the second, on which all other exchanges are
    made and which it closes last.  Each of the two is allocated once and
    closed once. *)
Theorem runResumptionTest_lifecycle (w : World) (u0 u1 : string)
    (rest : list string) (use0RTT : bool) (s : state) :
  let s1 := snd (setClientSessionCache 1 s) in
  let r1 := fst (newRoundTripper HTTP09 (Some tlsConf) s1) in
  fst (downloadFiles w r1 [u0] false
                     (snd (newRoundTripper HTTP09 (Some tlsConf) s1))) = None ->
  let n := next_id s in
  let evs := new_events s (snd (runResumptionTest w (u0 :: u1 :: rest)
                                                  use0RTT s)) in
  (exists v2,
      handle_view evs
      = ([Opened n; Fetched n u0; Closed n; Opened (S n)] ++ v2
           ++ [Closed (S n)])%list /\
      Forall (fetched_on (S n) (u1 :: rest)) v2) /\
  (opens n evs = 1 /\ closes n evs = 1) /\
  (opens (S n) evs = 1 /\ closes (S n) evs = 1).
Proof.
  intros s1 r1 H1 n evs.
  assert (exists v2,
             run_view s (snd (runResumptionTest w (u0 :: u1 :: rest) use0RTT s))
                      ([Opened n] ++ [] ++ [Fetched n u0] ++ [] ++ [Closed n]
                         ++ [Opened (S n)] ++ v2 ++ [Closed (S n)]) /\
             Forall (fetched_on (S n) (u1 :: rest)) v2) as (v2 & Hv & Hf).
  { rewrite runResumptionTest_eq. cbv zeta. fold s1 r1. rewrite H1.
    set (s2 := snd (newRoundTripper HTTP09 (Some tlsConf) s1)) in *.
    rewrite downloadFiles_one in *. cbn [fst snd] in *.
    set (d := downloadFile w r1 u0 false s2) in *.
    set (s3 := emit (EvGoDone 0 (fst d)) (snd d)).
    set (s4 := snd (Close w r1 s3)).
    set (r2 := fst (newRoundTripper HTTP09 (Some tlsConf) s4)).
    set (s5 := snd (newRoundTripper HTTP09 (Some tlsConf) s4)).
    assert (next_id s4 = S n) as Hn4.
    { subst s4 s3 d. cbn [Close snd emit next_id].
      destruct (downloadFile_frame w r1 u0 false s2) as (-> & _). reflexivity. }
    destruct (run_view_downloadFiles w r2 (u1 :: rest) use0RTT s5)
      as (v2 & Hv2 & Hf2).
    assert (rt_id r2 = S n) as Hr2 by (subst r2; simpl; exact Hn4).
    rewrite Hr2 in Hf2. exists v2. split; [|exact Hf2].
    eapply run_view_trans.
    { apply (run_view_trans s s1 s2 [] [Opened n]);
        [apply run_view_setClientSessionCache|].
      apply (run_view_newRoundTripper HTTP09 (Some tlsConf) s1). }
    eapply run_view_trans; [apply (run_view_refl s2)|].
    eapply run_view_trans;
      [apply (run_view_downloadFile w r1 u0 false s2 H1)|]. fold d.
    eapply run_view_trans;
      [apply (run_view_silent (EvGoDone 0 (fst d)) (snd d)); reflexivity|].
    fold s3.
    eapply run_view_trans; [apply (run_view_Close w r1 s3)|]. fold s4.
    pose proof (run_view_newRoundTripper HTTP09 (Some tlsConf) s4) as Ho.
    rewrite Hn4 in Ho. fold s5 in Ho.
    eapply run_view_trans; [exact Ho|].
    eapply run_view_trans; [exact Hv2|].
    pose proof (run_view_Close w r2 (snd (downloadFiles w r2 (u1 :: rest)
                                                          use0RTT s5))) as Hc.
    rewrite Hr2 in Hc. exact Hc. }
  apply run_view_new_events in Hv. fold evs in Hv. cbn [app] in Hv.
  split; [exists v2; split; [exact Hv | exact Hf]|].
  unfold opens, closes. rewrite Hv.
  change (Opened n :: Fetched n u0 :: Closed n :: Opened (S n)
            :: (v2 ++ [Closed (S n)]))%list
    with ([Opened n; Fetched n u0; Closed n; Opened (S n)] ++ v2
            ++ [Closed (S n)])%list.
  rewrite !count_app.
  destruct (fetched_on_count _ _ _ n Hf) as [-> ->].
  destruct (fetched_on_count _ _ _ (S n) Hf) as [-> ->].
  unfold count. cbn [filter handle_event_eqb].
  rewrite !Nat.eqb_refl.
  replace (n =? S n)%nat with false by (symmetry; apply Nat.eqb_neq; lia).
  replace (S n =? n)%nat with false by (symmetry; apply Nat.eqb_neq; lia).
  repeat split.
Qed.

(** The lifecycle at two urls that download without error. *)
Lemma runResumptionTest_lifecycle_witness :
  closes 0 (new_events init_state
              (snd (runResumptionTest world_ok
                      ["https://server/a"; "https://server/b"] true init_state)))
  = 1 /\
  closes 1 (new_events init_state
              (snd (runResumptionTest world_ok
                      ["https://server/a"; "https://server/b"] true init_state)))
  = 1.
Proof.
  destruct (runResumptionTest_lifecycle world_ok "https://server/a"
              "https://server/b" [] true init_state eq_refl)
    as (_ & (_ & H1) & (_ & H2)).
  split; [exact H1 | exact H2].
Defined.

(** ** No round tripper is used twice by multi-connect *)

Lemma exchanges_in_app (i : nat) (a b : list handle_event) :
  exchanges_in i (a ++ b) = exchanges_in i a + exchanges_in i b.
Proof.
  unfold exchanges_in. rewrite filter_app, length_app. reflexivity.
Qed.

(** The view of any call of [downloadFile]: one exchange, or none when the
    request could not be built. *)
Lemma run_view_downloadFile_any (w : World) (cl : RoundTripper) (url : string)
    (use0RTT : bool) (s : state) :
  exists v,
    run_view s (snd (downloadFile w cl url use0RTT s)) v /\
    (v = [] \/ v = [Fetched (rt_id cl) url]).
Proof.
  unfold downloadFile, NewRequest, RoundTrip, Create, Copy, FileClose, BodyClose.
  destruct (parse_url w url) as [path|e]; cbn [fst snd].
  { destruct (round_trip w _ cl _) as [rsp|e]; cbn [fst snd];
      [destruct (os_create w _ _) as [e|]; cbn [fst snd]|];
      (exists [Fetched (rt_id cl) url]; split; [|auto]);
      unfold run_view, emit; cbn [trace]; rewrite <- ?app_assoc;
      eexists; split; reflexivity. }
  exists []. split; [|auto]. eexists; split; reflexivity.
Qed.

Lemma later_ids_count (k i : nat) (v : list handle_event) :
  Forall (fun h => k <= handle_id h) v -> i < k ->
  count (Opened i) v = 0 /\ exchanges_in i v = 0 /\ count (Closed i) v = 0.
Proof.
  intros H Hi. induction H as [|h v Hh _ (IH1 & IH2 & IH3)]; [auto|].
  unfold count, exchanges_in in *.
  destruct h as [j|j u|j]; cbn [filter handle_event_eqb handle_id] in *;
    try (replace (i =? j)%nat with false by (symmetry; apply Nat.eqb_neq; lia));
    try (replace (j =? i)%nat with false by (symmetry; apply Nat.eqb_neq; lia));
    auto.
Qed.

Lemma runMultiConnectTest_lives (w : World) (urls : list string) (s : state) :
  exists v,
    run_view s (snd (runMultiConnectTest w urls s)) v /\
    Forall (fun h => next_id s <= handle_id h) v /\
    forall i,
      count (Closed i) v <= exchanges_in i v /\
      exchanges_in i v <= count (Opened i) v /\
      count (Opened i) v <= 1.
Proof.
  revert s; induction urls as [|u urls IH]; intros s.
  - exists []. split; [apply run_view_refl|]. split; [constructor|].
    intros i. cbv. auto.
  - rewrite runMultiConnectTest_cons. cbv zeta.
    set (r := fst (newRoundTripper HTTP09 (Some tlsConf) s)).
    set (s1 := snd (newRoundTripper HTTP09 (Some tlsConf) s)).
    set (n := next_id s).
    pose proof (run_view_newRoundTripper HTTP09 (Some tlsConf) s) as Ho.
    fold s1 n in Ho.
    destruct (run_view_downloadFile_any w r u false s1) as (dv & Hdv & Hcase).
    pose proof (run_view_downloadFile w r u false s1) as Hok.
    pose proof (downloadFile_frame w r u false s1) as (Hn & _).
    change (rt_id r) with n in *.
    destruct (fst (downloadFile w r u false s1)) as [e|].
    { (* the download fails *)
      exists ([Opened n] ++ dv)%list. cbn [snd].
      split; [eapply run_view_trans; eauto|].
      split.
      - destruct Hcase as [->| ->]; repeat constructor; simpl; lia.
      - intros i. unfold count, exchanges_in.
        destruct Hcase as [->| ->]; cbn [app filter handle_event_eqb];
          destruct (Nat.eqb_spec i n), (Nat.eqb_spec n i); simpl; lia. }
    specialize (Hok eq_refl).
    pose proof (run_view_Close w r (snd (downloadFile w r u false s1))) as Hc.
    change (rt_id r) with n in Hc.
    assert (run_view s (snd (Close w r (snd (downloadFile w r u false s1))))
                     ([Opened n] ++ [Fetched n u] ++ [Closed n])) as Hlife.
    { eapply run_view_trans; [exact Ho|].
      eapply run_view_trans; [exact Hok | exact Hc]. }
    assert (forall i,
               count (Opened i) [Opened n; Fetched n u; Closed n]
               = (if (i =? n)%nat then 1 else 0) /\
               exchanges_in i [Opened n; Fetched n u; Closed n]
               = (if (i =? n)%nat then 1 else 0) /\
               count (Closed i) [Opened n; Fetched n u; Closed n]
               = (if (i =? n)%nat then 1 else 0)) as Hone.
    { intros i. unfold count, exchanges_in. cbn [filter handle_event_eqb].
      destruct (Nat.eqb_spec i n), (Nat.eqb_spec n i); simpl; auto; lia. }
    destruct (fst (Close w r (snd (downloadFile w r u false s1)))) as [e|].
    { (* the close fails *)
      exists ([Opened n] ++ [Fetched n u] ++ [Closed n])%list. cbn [snd].
      split; [exact Hlife|]. split.
      - repeat constructor; simpl; lia.
      - intros i. cbn [app]. destruct (Hone i) as (E1 & E2 & E3).
        rewrite E1, E2, E3. destruct (i =? n)%nat; lia. }
    destruct (IH (snd (Close w r (snd (downloadFile w r u false s1)))))
      as (v & Hv & Hids & Hcounts).
    assert (next_id (snd (Close w r (snd (downloadFile w r u false s1)))) = S n)
      as Hnext by (simpl; rewrite Hn; reflexivity).
    rewrite Hnext in Hids.
    exists ([Opened n; Fetched n u; Closed n] ++ v)%list.
    split; [eapply run_view_trans; [exact Hlife | exact Hv]|]. split.
    + apply Forall_app. split; [repeat constructor; simpl; lia|].
      eapply Forall_impl; [|exact Hids]. simpl. intros; lia.
    + intros i.
      rewrite (count_app (Closed i)), (count_app (Opened i)), exchanges_in_app.
      destruct (Hone i) as (E1 & E2 & E3). rewrite E1, E2, E3.
      destruct (Hcounts i) as (C1 & C2 & C3).
      destruct (Nat.eqb_spec i n) as [Heq|Hne]; [|lia].
      rewrite Heq in *.
      destruct (later_ids_count (S n) n v Hids ltac:(lia)) as (L1 & L2 & L3).
      rewrite L1, L2, L3. lia.
Qed.

(** In every run of the multi-connect strategy, failing or not, a round
    tripper is allocated at most once, makes at most one exchange, and is
    closed at most once and only after it made its exchange: no connection is
    used for two urls. *)
Theorem runMultiConnectTest_no_reuse (w : World) (urls : list string)
    (s : state) (i : nat) :
  let evs := new_events s (snd (runMultiConnectTest w urls s)) in
  closes i evs <= exchanges i evs /\
  exchanges i evs <= opens i evs /\
  opens i evs <= 1.
Proof.
  destruct (runMultiConnectTest_lives w urls s) as (v & Hv & _ & H).
  apply run_view_new_events in Hv. cbv zeta. unfold closes, exchanges, opens.
  rewrite Hv. apply H.
Qed.

(** ** The globals *)

Lemma runMultiConnectTest_globals (w : World) (urls : list string) (s : state) :
  SupportedVersions (snd (runMultiConnectTest w urls s)) = SupportedVersions s /\
  ClientSessionCache (snd (runMultiConnectTest w urls s)) = ClientSessionCache s.
Proof.
  revert s; induction urls as [|u urls IH]; intros s; [simpl; auto|].
  rewrite runMultiConnectTest_cons. cbv zeta.
  set (r := fst (newRoundTripper HTTP09 (Some tlsConf) s)).
  set (s1 := snd (newRoundTripper HTTP09 (Some tlsConf) s)).
  pose proof (downloadFile_frame w r u false s1) as (_ & Hv & Hc).
  destruct (fst (downloadFile w r u false s1)); [simpl; auto|].
  destruct (fst (Close w r _)); [simpl; auto|].
  destruct (IH (snd (Close w r (snd (downloadFile w r u false s1)))))
    as [-> ->]. simpl. auto.
Qed.

Lemma PlainTransfer_globals (w : World) (k : transport) (urls : list string)
    (s : state) :
  SupportedVersions (snd (PlainTransfer_spec w k urls s)) = SupportedVersions s /\
  ClientSessionCache (snd (PlainTransfer_spec w k urls s)) = ClientSessionCache s.
Proof.
  unfold PlainTransfer_spec. cbn [newRoundTripper].
  match goal with |- context [downloadFiles w ?r urls false ?s1] =>
    destruct (downloadFiles_extends w r urls false s1) as (_ & _ & _ & _ & Hv & Hc);
    destruct (downloadFiles w r urls false s1) as [err s2] end.
  simpl in *. auto.
Qed.

Lemma runVersionNegotiationTest_globals (w : World) (urls : list string)
    (s : state) :
  SupportedVersions (snd (runVersionNegotiationTest w urls s))
  = (if (List.length urls =? 1)%nat then [reserved_version]
     else SupportedVersions s) /\
  ClientSessionCache (snd (runVersionNegotiationTest w urls s))
  = ClientSessionCache s.
Proof.
  unfold runVersionNegotiationTest.
  destruct (List.length urls =? 1)%nat; simpl; auto.
  match goal with |- context [downloadFile w ?r ?u false ?s1] =>
    pose proof (downloadFile_frame w r u false s1) as (_ & Hv & Hc);
    destruct (downloadFile w r u false s1) as [err s'] end.
  simpl in *. destruct err as [e|]; [destruct (negb _)|]; simpl; auto.
Qed.

Lemma runResumptionTest_globals (w : World) (urls : list string)
    (use0RTT : bool) (s : state) :
  SupportedVersions (snd (runResumptionTest w urls use0RTT s))
  = SupportedVersions s /\
  ClientSessionCache (snd (runResumptionTest w urls use0RTT s))
  = (if (2 <=? List.length urls)%nat then Some 1 else ClientSessionCache s).
Proof.
  destruct urls as [|u0 [|u1 rest]]; [simpl; auto | simpl; auto |].
  rewrite runResumptionTest_eq. cbv zeta. cbn [List.length Nat.leb].
  set (s1 := snd (setClientSessionCache 1 s)).
  set (r1 := fst (newRoundTripper HTTP09 (Some tlsConf) s1)).
  set (s2 := snd (newRoundTripper HTTP09 (Some tlsConf) s1)).
  destruct (downloadFiles_extends w r1 [u0] false s2) as (_ & _ & _ & _ & V1 & C1).
  destruct (fst (downloadFiles w r1 [u0] false s2)).
  { cbn [snd]. rewrite V1, C1. simpl. auto. }
  cbn [snd].
  set (s4 := snd (Close w r1 (snd (downloadFiles w r1 [u0] false s2)))).
  set (r2 := fst (newRoundTripper HTTP09 (Some tlsConf) s4)).
  set (s5 := snd (newRoundTripper HTTP09 (Some tlsConf) s4)).
  destruct (downloadFiles_extends w r2 (u1 :: rest) use0RTT s5)
    as (_ & _ & _ & _ & V2 & C2).
  cbn [Close snd emit SupportedVersions ClientSessionCache].
  rewrite V2, C2. subst s5 s4. simpl. rewrite V1, C1. simpl. auto.
Qed.

(** Which test case assigns which global: [protocol.SupportedVersions] is
    assigned by "versionnegotiation" given exactly one url and by nothing
    else; the session cache of the TLS configuration is replaced, by one of
    capacity 1, by "resumption" and "zerortt" given at least two urls and by
    nothing else.  In particular an unknown test case and a rejected url
    count leave both untouched. *)
Theorem runTestcase_globals (w : World) (tc : string) (urls : list string)
    (s : state) :
  let s' := snd (runTestcase w tc urls s) in
  SupportedVersions s'
  = (if (tc =? "versionnegotiation") && (List.length urls =? 1)%nat
     then [reserved_version] else SupportedVersions s) /\
  ClientSessionCache s'
  = (if ((tc =? "resumption") || (tc =? "zerortt"))
          && (2 <=? List.length urls)%nat
     then Some 1 else ClientSessionCache s).
Proof.
  cbv zeta.
  destruct (in_dec string_dec tc
              ["http3"; "handshake"; "transfer"; "retry"; "multiconnect";
               "versionnegotiation"; "resumption"; "zerortt"]) as [Hin|Hout].
  - destruct Hin as [<-|[<-|[<-|[<-|[<-|[<-|[<-|[<-|[]]]]]]]]];
      cbn [String.eqb Ascii.eqb Bool.eqb andb orb].
    + rewrite runTestcase_http3. apply PlainTransfer_globals.
    + rewrite (runTestcase_baseline w "handshake") by (simpl; auto).
      apply PlainTransfer_globals.
    + rewrite (runTestcase_baseline w "transfer") by (simpl; auto).
      apply PlainTransfer_globals.
    + rewrite (runTestcase_baseline w "retry") by (simpl; auto).
      apply PlainTransfer_globals.
    + apply (runMultiConnectTest_globals w urls s).
    + apply (runVersionNegotiationTest_globals w urls s).
    + apply (runResumptionTest_globals w urls false s).
    + apply (runResumptionTest_globals w urls true s).
  - rewrite (runTestcase_unknown w tc urls s Hout). cbn [snd].
    assert (forall name,
               In name ["versionnegotiation"; "resumption"; "zerortt"] ->
               (tc =? name) = false) as Hne.
    { intros name Hn. apply String.eqb_neq. intros ->. apply Hout.
      simpl in *. tauto. }
    rewrite !Hne by (simpl; auto). auto.
Qed.

(** ** Whose errors come back *)

Lemma foreign_not_unsupported (e : error) :
  foreign e -> is_errUnsupported e = false.
Proof.
  destruct e; simpl; tauto.
Qed.

Section Foreign.

Variable w : World.
Hypothesis Hw : external_world w.

Lemma downloadFile_foreign (cl : RoundTripper) (url : string) (use0RTT : bool)
    (s : state) (e : error) :
  fst (downloadFile w cl url use0RTT s) = Some e -> foreign e.
Proof.
  destruct Hw as (Hp & Hr & _ & Hc & Hio).
  unfold downloadFile, NewRequest, RoundTrip, Create, Copy, FileClose, BodyClose.
  destruct (parse_url w url) as [path|e0] eqn:Ep; cbn [fst snd].
  2: { intros [= <-]. eauto. }
  destruct (round_trip w _ cl _) as [rsp|e0] eqn:Er; cbn [fst snd].
  2: { intros [= <-]. eauto. }
  destruct (os_create w _ _) as [e0|] eqn:Ec; cbn [fst snd].
  { intros [= <-]. eauto. }
  intros H. eauto.
Qed.

Lemma go_step_foreign (cl : RoundTripper) (use0RTT : bool) (i : nat)
    (g : goroutine) (gerr : option error) (s : state) :
  goroutine_foreign g ->
  goroutine_foreign (fst (fst (go_step w cl use0RTT i g gerr s))).
Proof.
  destruct Hw as (Hp & Hr & _ & Hc & Hio).
  destruct g as [u|req|req rsp|req rsp|e|e]; simpl; intros Hg.
  - unfold NewRequest. destruct (parse_url w u) eqn:E; simpl; eauto.
  - unfold RoundTrip. destruct (round_trip w _ cl req) eqn:E; simpl; eauto.
  - unfold Create. destruct (os_create w _ _) eqn:E; simpl; eauto.
  - destruct (io_copy w _ _ rsp) eqn:E; simpl; eauto.
  - exact Hg.
  - exact Hg.
Qed.

Lemma group_run_foreign (cl : RoundTripper) (use0RTT : bool) (fuel : nat)
    (g : Group) (s : state) :
  Forall goroutine_foreign (goroutines g) ->
  Forall goroutine_foreign
         (goroutines (fst (group_run w fuel cl use0RTT g s))).
Proof.
  revert g s; induction fuel as [|fuel IH]; intros g s H; simpl; auto.
  assert (Forall goroutine_foreign
                 (goroutines (fst (group_step w cl use0RTT g s)))) as H'.
  { destruct (group_step_cases w cl use0RTT g s) as [[_ E]|(i & Hlt & _ & E)];
      simpl in E; rewrite E; simpl; auto.
    apply set_nth_Forall; auto. apply go_step_foreign.
    eapply Forall_forall; [exact H|]. apply nth_In; auto. }
  destruct (group_step w cl use0RTT g s) as [g' s']. apply IH. exact H'.
Qed.

Lemma downloadFiles_foreign (cl : RoundTripper) (urls : list string)
    (use0RTT : bool) (s : state) (e : error) :
  fst (downloadFiles w cl urls use0RTT s) = Some e -> foreign e.
Proof.
  unfold downloadFiles, downloadFiles_group.
  set (g0 := mkGroup (map GStart urls) None).
  pose proof (group_run_inv w cl use0RTT (5 * List.length urls) g0 s
                (start_inv urls)) as [_ Hsome].
  assert (Forall goroutine_foreign (goroutines g0)) as H0.
  { subst g0. simpl. apply Forall_forall. intros g Hg.
    apply in_map_iff in Hg. destruct Hg as (u & <- & _). exact I. }
  pose proof (group_run_foreign cl use0RTT (5 * List.length urls) g0 s H0) as Hf.
  destruct (group_run w (5 * List.length urls) cl use0RTT g0 s) as [g s'].
  simpl in *. intros He. specialize (Hsome e He).
  apply (proj1 (Forall_forall _ _) Hf) in Hsome. exact Hsome.
Qed.

Lemma runMultiConnectTest_foreign (urls : list string) (s : state) (e : error) :
  fst (runMultiConnectTest w urls s) = Some e -> foreign e.
Proof.
  revert s; induction urls as [|u urls IH]; intros s; [discriminate|].
  rewrite runMultiConnectTest_cons. cbv zeta.
  set (r := fst (newRoundTripper HTTP09 (Some tlsConf) s)).
  set (s1 := snd (newRoundTripper HTTP09 (Some tlsConf) s)).
  pose proof (downloadFile_foreign r u false s1) as Hd.
  destruct (fst (downloadFile w r u false s1)) as [e0|].
  { intros [= <-]. auto. }
  destruct (fst (Close w r (snd (downloadFile w r u false s1)))) as [e0|] eqn:Ec.
  { intros [= <-]. destruct Hw as (_ & _ & Hcl & _).
    unfold Close in Ec. simpl in Ec. eauto. }
  apply IH.
Qed.

Lemma runVersionNegotiationTest_foreign (urls : list string) (s : state)
    (e : error) :
  fst (runVersionNegotiationTest w urls s) = Some e -> foreign e.
Proof.
  unfold runVersionNegotiationTest.
  destruct (negb _); [intros [= <-]; exact I|].
  cbn [setSupportedVersions newRoundTripper].
  destruct (downloadFile w _ _ false _) as [[e0|] s'];
    [destruct (negb _)|]; cbn [fst]; intros [= <-]; exact I.
Qed.

Lemma runResumptionTest_foreign (urls : list string) (use0RTT : bool)
    (s : state) (e : error) :
  fst (runResumptionTest w urls use0RTT s) = Some e -> foreign e.
Proof.
  destruct urls as [|u0 [|u1 rest]]; try (intros [= <-]; exact I).
  rewrite runResumptionTest_eq. cbv zeta.
  match goal with |- context [downloadFiles w ?r [u0] false ?s2] =>
    pose proof (downloadFiles_foreign r [u0] false s2) as H1;
    destruct (fst (downloadFiles w r [u0] false s2)) as [e0|] end.
  { intros [= <-]. auto. }
  cbn [fst]. apply downloadFiles_foreign.
Qed.

Lemma PlainTransfer_foreign (k : transport) (urls : list string) (s : state)
    (e : error) :
  fst (PlainTransfer_spec w k urls s) = Some e -> foreign e.
Proof.
  unfold PlainTransfer_spec. cbn [newRoundTripper].
  match goal with |- context [downloadFiles w ?r urls false ?s1] =>
    pose proof (downloadFiles_foreign r urls false s1) as H1;
    destruct (downloadFiles w r urls false s1) as [err s2] end.
  cbn [fst snd Close] in *. exact (H1 e).
Qed.

Lemma runTestcase_foreign (tc : string) (urls : list string) (s : state)
    (e : error) :
  In tc testcases ->
  fst (runTestcase w tc urls s) = Some e -> foreign e.
Proof.
  intros [<-|[<-|[<-|[<-|[<-|[<-|[<-|[<-|[]]]]]]]]].
  - rewrite runTestcase_http3. apply PlainTransfer_foreign.
  - rewrite (runTestcase_baseline w "handshake") by (simpl; auto).
    apply PlainTransfer_foreign.
  - rewrite (runTestcase_baseline w "transfer") by (simpl; auto).
    apply PlainTransfer_foreign.
  - rewrite (runTestcase_baseline w "retry") by (simpl; auto).
    apply PlainTransfer_foreign.
  - apply (runMultiConnectTest_foreign urls s).
  - apply (runVersionNegotiationTest_foreign urls s).
  - apply (runResumptionTest_foreign urls false s).
  - apply (runResumptionTest_foreign urls true s).
Qed.

End Foreign.

Lemma world_ok_external : external_world world_ok.
Proof.
  repeat split; try discriminate.
  intros u e. simpl. unfold url_path.
  destruct (index 0 "://" u); intros [= <-]; exact I.
Qed.

(** ** main *)

(** The exit status of the process is 0, 1, 2 or 127.  Status 2 is the exit
    of [flag.Parse] on a flag it cannot parse.  [errUnsupported] is returned
    for unknown test cases only, so status 127 means exactly that the command
    line was parsed and the name in TESTCASE is none of the eight, and the
    message names it.  Status 0 is reached when help was asked for, or by a
    known test case. *)
Theorem main_exit_status (w : World) (tc : string) (cmdline : CommandLine)
    (s : state) :
  external_world w ->
  let status := fst (fst (main w tc cmdline s)) in
  let printed := snd (fst (main w tc cmdline s)) in
  (status = 0 \/ status = 1 \/ status = 2 \/ status = 127) /\
  (status = 127 ->
   (exists args, cmdline = Parsed args) /\ ~ In tc testcases /\
   printed = "unsupported test case: " ++ tc ++ nl) /\
  (status = 2 -> cmdline = BadFlag) /\
  (status = 0 ->
   (cmdline = HelpRequested \/
    (exists args, cmdline = Parsed args) /\ In tc testcases) /\
   printed = "").
Proof.
  intros Hw. unfold main.
  destruct (Create w log_path s) as [[e1|] s1]; cbn [fst snd].
  { repeat split; auto; discriminate. }
  destruct (Create w keylog_path s1) as [[e2|] s2]; cbn [fst snd].
  { repeat split; auto; discriminate. }
  cbn [newTLSConfig].
  set (s3 := mkState (trace s2) (next_id s2) (SupportedVersions s2) None (files s2)).
  destruct cmdline as [args| |]; cbn [fst snd].
  2: { repeat split; auto; discriminate. }
  2: { repeat split; auto; discriminate. }
  destruct (in_dec string_dec tc testcases) as [Hin|Hout].
  - pose proof (runTestcase_foreign w Hw tc args s3) as Hf.
    destruct (runTestcase w tc args s3) as [[e|] s4]; cbn [fst snd] in *.
    + rewrite (foreign_not_unsupported e (Hf e Hin eq_refl)). cbn [fst snd].
      repeat split; auto; discriminate.
    + cbn [FileClose fst snd]. repeat split; eauto; discriminate.
  - rewrite (runTestcase_unknown w tc args s3 Hout). cbn [is_errUnsupported
      errUnsupported String.eqb Ascii.eqb Bool.eqb fst snd].
    repeat split; eauto; discriminate.
Qed.

(** An unknown test case at a world where the log files can be created. *)
Lemma main_exit_status_witness :
  fst (main world_ok "goodput" (Parsed ["https://server/a"]) init_state)
  = (127, "unsupported test case: goodput" ++ nl).
Proof.
  pose proof (main_exit_status world_ok "goodput" (Parsed ["https://server/a"])
                init_state world_ok_external) as (_ & H & _).
  destruct (H eq_refl) as (_ & _ & Hp).
  destruct (main world_ok "goodput" (Parsed ["https://server/a"]) init_state)
    as [[st out] s'] eqn:E.
  cbn [fst snd] in Hp. rewrite Hp.
  assert (st = 127) as -> by (vm_compute in E; congruence).
  reflexivity.
Defined.

Lemma world_rt_fail_external (msg : string) : external_world (world_rt_fail msg).
Proof.
  repeat split; try discriminate.
  - intros u e. simpl. unfold url_path.
    destruct (index 0 "://" u); intros [= <-]; exact I.
  - intros tr r req e [= <-]. exact I.
Qed.

(** When the command line is parsed and a known test case fails, the process
    prints "Downloading files failed: " with the message of the error and
    exits with status 1, never with 127. *)
Theorem main_reports_failure (w : World) (tc : string) (args : list string)
    (s : state) (err : error) :
  external_world w ->
  In tc testcases ->
  os_create w (trace s) log_path = None ->
  os_create w (trace s ++ [EvCreate log_path None]) keylog_path = None ->
  let s0 := mkState (trace s ++ [EvCreate log_path None; EvCreate keylog_path None])
                    (next_id s) (SupportedVersions s) None
                    (keylog_path :: log_path :: files s) in
  fst (runTestcase w tc args s0) = Some err ->
  main w tc (Parsed args) s
  = ((1, "Downloading files failed: " ++ Error err ++ nl),
     snd (runTestcase w tc args s0)).
Proof.
  intros Hw Hin Hl Hk s0 Hrun. unfold main, Create.
  rewrite Hl. cbn [fst snd trace]. rewrite Hk.
  cbn [newTLSConfig trace next_id SupportedVersions ClientSessionCache files].
  rewrite <- app_assoc. cbn [app]. fold s0.
  pose proof (runTestcase_foreign w Hw tc args s0 err Hin Hrun) as Hf.
  destruct (runTestcase w tc args s0) as [[e|] s1]; cbn [fst snd] in *;
    [|discriminate].
  injection Hrun as ->. rewrite (foreign_not_unsupported err Hf). reflexivity.
Qed.

(** The handshake test case against a server that refuses the connection. *)
Lemma main_reports_failure_witness :
  fst (main (world_rt_fail "connection refused") "handshake"
            (Parsed ["https://server/a"]) init_state)
  = (1, "Downloading files failed: connection refused" ++ nl).
Proof.
  rewrite (main_reports_failure (world_rt_fail "connection refused")
             "handshake" ["https://server/a"] init_state
             (ErrExt "connection refused")
             (world_rt_fail_external "connection refused")
             (or_intror (or_introl eq_refl)) eq_refl eq_refl eq_refl).
  reflexivity.
Defined.

(** If one of the two log files cannot be created the process exits with
    status 1 at once, whatever the command line: it is not parsed and no
    test case is run, so no round tripper is allocated, no request is built
    and no global is assigned. *)
Theorem main_needs_log_files (w : World) (tc : string)
    (cmdline : CommandLine) (s : state) (err : error) :
  os_create w (trace s) log_path = Some err \/
  (os_create w (trace s) log_path = None /\
   os_create w (trace s ++ [EvCreate log_path None]) keylog_path = Some err) ->
  let s' := snd (main w tc cmdline s) in
  fst (fst (main w tc cmdline s)) = 1 /\
  handle_view (new_events s s') = [] /\
  requested (new_events s s') = [] /\
  next_id s' = next_id s /\
  SupportedVersions s' = SupportedVersions s /\
  ClientSessionCache s' = ClientSessionCache s.
Proof.
  intros [Hl|[Hl Hk]]; unfold main, Create; rewrite Hl; cbn [fst snd trace].
  - rewrite new_events_emit. repeat split.
  - rewrite Hk. cbn [fst snd]. flatten_trace. repeat split.
Qed.

(** A world in which no file can be created. *)
Lemma main_needs_log_files_witness :
  fst (main world_create_fail "transfer" (Parsed ["https://server/a"])
            init_state)
  = (1, "Could not create log file: permission denied" ++ nl).
Proof.
  pose proof (main_needs_log_files world_create_fail "transfer"
                (Parsed ["https://server/a"]) init_state
                (ErrExt "permission denied") (or_introl eq_refl)) as (H & _).
  destruct (main world_create_fail "transfer" (Parsed ["https://server/a"])
                 init_state) as [[st out] s'] eqn:E.
  cbn [fst] in H. subst st. vm_compute in E. injection E as <- _. reflexivity.
Defined.

(** ** The names of the files *)

Lemma stored_from_refl (w : World) (urls : list string) (s : state) :
  stored_from w urls s s.
Proof.
  intros p H. auto.
Qed.

Lemma stored_from_trans (w : World) (urls : list string) (s1 s2 s3 : state) :
  stored_from w urls s1 s2 -> stored_from w urls s2 s3 ->
  stored_from w urls s1 s3.
Proof.
  intros H12 H23 p H. destruct (H23 p H) as [H2|H2]; auto.
Qed.

Lemma stored_from_same (w : World) (urls : list string) (s s' : state) :
  files s' = files s -> stored_from w urls s s'.
Proof.
  intros E p H. rewrite E in H. auto.
Qed.

Lemma stored_from_more (w : World) (urls urls' : list string) (s s' : state) :
  (forall u, In u urls -> In u urls') ->
  stored_from w urls s s' -> stored_from w urls' s s'.
Proof.
  intros Hsub H p Hp. destruct (H p Hp) as [Ho|(u & path & Hu & Hpath & ->)];
    [auto|]. right. exists u, path. auto.
Qed.

Lemma go_step_stored (w : World) (cl : RoundTripper) (urls : list string)
    (use0RTT : bool) (i : nat) (g : goroutine) (gerr : option error)
    (s : state) :
  goroutine_request w urls g ->
  stored_from w urls s (snd (go_step w cl use0RTT i g gerr s)) /\
  goroutine_request w urls (fst (fst (go_step w cl use0RTT i g gerr s))).
Proof.
  destruct g as [u|req|req rsp|req rsp|e|e]; simpl; intros Hg.
  - unfold NewRequest. destruct (parse_url w u) eqn:E; simpl;
      (split; [apply stored_from_same; reflexivity | auto]).
  - unfold RoundTrip. destruct (round_trip w _ cl req); simpl;
      (split; [apply stored_from_same; reflexivity | auto]).
  - unfold Create. destruct (os_create w _ _); simpl;
      (split; [|auto]); [apply stored_from_same; reflexivity|].
    intros p [<-|H]; [right|auto].
    exists (req_url req), (req_path req). destruct Hg as [Hu Hp]. auto.
  - split; [apply stored_from_same; reflexivity | exact I].
  - split; [apply stored_from_same; reflexivity | exact I].
  - split; [apply stored_from_refl | exact I].
Qed.

Lemma group_run_stored (w : World) (cl : RoundTripper) (urls : list string)
    (use0RTT : bool) (fuel : nat) (g : Group) (s : state) :
  Forall (goroutine_request w urls) (goroutines g) ->
  stored_from w urls s (snd (group_run w fuel cl use0RTT g s)).
Proof.
  revert g s; induction fuel as [|fuel IH]; intros g s Hg; simpl;
    [apply stored_from_refl|].
  assert (stored_from w urls s (snd (group_step w cl use0RTT g s)) /\
          Forall (goroutine_request w urls)
                 (goroutines (fst (group_step w cl use0RTT g s)))) as [H Hg'].
  { destruct (group_step_cases w cl use0RTT g s) as [[_ E]|(i & Hlt & _ & E)];
      simpl in E; rewrite E; simpl; [split; auto using stored_from_refl|].
    assert (goroutine_request w urls (nth i (goroutines g) (GDone None))) as Hi.
    { eapply Forall_forall; [exact Hg|]. apply nth_In; auto. }
    destruct (go_step_stored w cl urls use0RTT i _ (g_err g) s Hi) as [Hs Hr].
    split; [exact Hs|]. apply set_nth_Forall; auto. }
  destruct (group_step w cl use0RTT g s) as [g' s'].
  eapply stored_from_trans; [exact H | apply IH; exact Hg'].
Qed.

Lemma downloadFiles_stored (w : World) (cl : RoundTripper)
    (urls : list string) (use0RTT : bool) (s : state) :
  stored_from w urls s (snd (downloadFiles w cl urls use0RTT s)).
Proof.
  unfold downloadFiles, downloadFiles_group.
  pose proof (group_run_stored w cl urls use0RTT (5 * List.length urls)
                (mkGroup (map GStart urls) None) s) as H.
  destruct (group_run _ _ _ _ _ _) as [g s']. apply H.
  simpl. apply Forall_forall. intros g0 Hg0. apply in_map_iff in Hg0.
  destruct Hg0 as (u & <- & Hu). exact Hu.
Qed.

Lemma downloadFile_stored (w : World) (cl : RoundTripper) (url : string)
    (use0RTT : bool) (s : state) :
  stored_from w [url] s (snd (downloadFile w cl url use0RTT s)).
Proof.
  unfold downloadFile, NewRequest, RoundTrip, Create, Copy, FileClose, BodyClose.
  destruct (parse_url w url) as [path|e] eqn:E; cbn [fst snd];
    [|apply stored_from_same; reflexivity].
  destruct (round_trip w _ cl _) as [rsp|e]; cbn [fst snd];
    [|apply stored_from_same; reflexivity].
  destruct (os_create w _ _) as [e|]; cbn [fst snd];
    [apply stored_from_same; reflexivity|].
  intros p [<-|H]; [right|auto].
  exists url, path. simpl. auto.
Qed.

Lemma runMultiConnectTest_stored (w : World) (urls : list string) (s : state) :
  stored_from w urls s (snd (runMultiConnectTest w urls s)).
Proof.
  revert s; induction urls as [|u urls IH]; intros s;
    [apply stored_from_refl|].
  rewrite runMultiConnectTest_cons. cbv zeta.
  set (r := fst (newRoundTripper HTTP09 (Some tlsConf) s)).
  set (s1 := snd (newRoundTripper HTTP09 (Some tlsConf) s)).
  assert (stored_from w (u :: urls) s (snd (downloadFile w r u false s1))) as Hd.
  { apply (stored_from_trans w _ s s1);
      [apply stored_from_same; reflexivity|].
    eapply stored_from_more; [|apply downloadFile_stored].
    intros x [<-|[]]. left. reflexivity. }
  destruct (fst (downloadFile w r u false s1)); [exact Hd|].
  assert (stored_from w (u :: urls) s
                      (snd (Close w r (snd (downloadFile w r u false s1)))))
    as Hc.
  { eapply stored_from_trans; [exact Hd|].
    apply stored_from_same. reflexivity. }
  destruct (fst (Close w r _)); [exact Hc|].
  eapply stored_from_trans; [exact Hc|].
  eapply stored_from_more; [|apply IH]. intros x Hx. right. exact Hx.
Qed.

Lemma PlainTransfer_stored (w : World) (k : transport) (urls : list string)
    (s : state) :
  stored_from w urls s (snd (PlainTransfer_spec w k urls s)).
Proof.
  unfold PlainTransfer_spec. cbn [newRoundTripper].
  match goal with |- context [downloadFiles w ?r urls false ?s1] =>
    pose proof (downloadFiles_stored w r urls false s1) as H;
    destruct (downloadFiles w r urls false s1) as [err s2] end.
  cbn [fst snd Close] in *. intros p Hp. apply (H p Hp).
Qed.

Lemma runVersionNegotiationTest_stored (w : World) (urls : list string)
    (s : state) :
  stored_from w urls s (snd (runVersionNegotiationTest w urls s)).
Proof.
  unfold runVersionNegotiationTest.
  destruct urls as [|u [|u' urls]]; try apply stored_from_refl.
  cbn [List.length Nat.eqb negb setSupportedVersions newRoundTripper nth].
  match goal with |- context [downloadFile w ?r u false ?s1] =>
    pose proof (downloadFile_stored w r u false s1) as H;
    destruct (downloadFile w r u false s1) as [[e|] s2] end;
    [destruct (negb _)|]; cbn [fst snd] in *; intros p Hp; apply (H p Hp).
Qed.

Lemma runResumptionTest_stored (w : World) (urls : list string)
    (use0RTT : bool) (s : state) :
  stored_from w urls s (snd (runResumptionTest w urls use0RTT s)).
Proof.
  destruct urls as [|u0 [|u1 rest]]; try apply stored_from_refl.
  rewrite runResumptionTest_eq. cbv zeta.
  set (s1 := snd (setClientSessionCache 1 s)).
  set (r1 := fst (newRoundTripper HTTP09 (Some tlsConf) s1)).
  set (s2 := snd (newRoundTripper HTTP09 (Some tlsConf) s1)).
  assert (stored_from w (u0 :: u1 :: rest) s
                      (snd (downloadFiles w r1 [u0] false s2))) as H1.
  { apply (stored_from_trans w _ s s2);
      [apply stored_from_same; reflexivity|].
    eapply stored_from_more; [|apply downloadFiles_stored].
    intros x [<-|[]]. left. reflexivity. }
  destruct (fst (downloadFiles w r1 [u0] false s2)); [exact H1|].
  cbn [snd].
  set (s4 := snd (Close w r1 (snd (downloadFiles w r1 [u0] false s2)))).
  set (r2 := fst (newRoundTripper HTTP09 (Some tlsConf) s4)).
  set (s5 := snd (newRoundTripper HTTP09 (Some tlsConf) s4)).
  eapply stored_from_trans; [exact H1|].
  apply (stored_from_trans w _ _ s5);
    [apply stored_from_same; reflexivity|].
  apply (stored_from_trans w _ s5
           (snd (downloadFiles w r2 (u1 :: rest) use0RTT s5)));
    [|apply stored_from_same; reflexivity].
  eapply stored_from_more;
    [|apply (downloadFiles_stored w r2 (u1 :: rest) use0RTT s5)].
  intros x Hx. right. exact Hx.
Qed.

(** Whatever the test case, the scheduler and the environment, a file that
    exists after [runTestcase] and did not exist before has the name the code
    builds for one of the given urls: the string "/downloads" followed by
    the path of that url, as the url parser returned it.  The path is taken
    as it is; this is about the name handed to [os.Create], not about the
    directory the file system resolves it to. *)
Theorem runTestcase_file_names (w : World) (tc : string)
    (urls : list string) (s : state) (p : string) :
  In p (files (snd (runTestcase w tc urls s))) ->
  In p (files s) \/
  exists u path,
    In u urls /\ parse_url w u = inl path /\ p = "/downloads" ++ path.
Proof.
  revert p. change (stored_from w urls s (snd (runTestcase w tc urls s))).
  destruct (in_dec string_dec tc
              ["http3"; "handshake"; "transfer"; "retry"; "multiconnect";
               "versionnegotiation"; "resumption"; "zerortt"]) as [Hin|Hout].
  - destruct Hin as [<-|[<-|[<-|[<-|[<-|[<-|[<-|[<-|[]]]]]]]]].
    + rewrite runTestcase_http3. apply PlainTransfer_stored.
    + rewrite (runTestcase_baseline w "handshake") by (simpl; auto).
      apply PlainTransfer_stored.
    + rewrite (runTestcase_baseline w "transfer") by (simpl; auto).
      apply PlainTransfer_stored.
    + rewrite (runTestcase_baseline w "retry") by (simpl; auto).
      apply PlainTransfer_stored.
    + apply (runMultiConnectTest_stored w urls s).
    + apply (runVersionNegotiationTest_stored w urls s).
    + apply (runResumptionTest_stored w urls false s).
    + apply (runResumptionTest_stored w urls true s).
  - rewrite (runTestcase_unknown w tc urls s Hout). apply stored_from_refl.
Qed.

(** The file a transfer of one url leaves behind. *)
Lemma runTestcase_file_names_witness :
  In "/downloads/dir/a" (files init_state) \/
  exists u path,
    In u ["https://server/dir/a"] /\ parse_url world_ok u = inl path /\
    "/downloads/dir/a" = "/downloads" ++ path.
Proof.
  apply (runTestcase_file_names world_ok "transfer" ["https://server/dir/a"]
           init_state "/downloads/dir/a").
  vm_compute. auto.
Defined.
